(** * GpuScan: sequential scan with device-side qualifier evaluation

    A shallow embedding of [gpuscan.c] (PG-Strom).  The planner hook
    [gpuscan_add_scan_path] sorts the restriction clauses of a base
    relation into a device group and a host group and costs the path with
    [cost_gpuscan]; [gpuscan_codegen_quals] prints the OpenCL source of the
    device qualifier; [gpuscan_begin] and the other executor callbacks hold
    the per-scan state; [gpuscan_copy_plan] duplicates a plan node;
    [gpuscan_create_plan] makes the plan node of a path, and
    [gpuscan_textout_plan] prints one, with [_outToken] and
    [_outBitmapset].

    Conventions of the embedding.
    - [elog(ERROR, ...)] and [ereport(ERROR, ...)] do not return: a
      callback is a computation in the [Result] monad and raising is the
      constructor [Raise].
    - [Assert(...)] is compiled out of production builds; an asserted
      condition appears as a hypothesis where a statement depends on it.
      Dereferencing the NULL that a failed catalog lookup returns does not
      continue either: it is a [Raise] with the code [TRAP].
    - [Cost], [Selectivity] and row counts are C [double]s; they are
      embedded as exact rationals ([Q]), rounding is not part of the model.
    - A [StringInfo] is the string it holds; [appendStringInfo] appends.
    - Functions that live outside [gpuscan.c] (PostgreSQL and the other
      PG-Strom modules) are grouped in interfaces, [Postgres], [Codegen],
      [Backend] and [CreatePlan]; a function of this file takes an
      implementation of the interfaces it calls. *)

From Stdlib Require Import ZArith QArith Lqa String Ascii List.
From stdpp Require Import base option list strings pretty gmap sorting.

Local Open Scope Z_scope.
Local Open Scope string_scope.

(** ** Errors *)

Inductive sqlerrcode_t :=
| ERRCODE_INTERNAL_ERROR       (* what a bare elog(ERROR) reports *)
| ERRCODE_OUT_OF_MEMORY
| TRAP.                        (* no report: the backend stops *)

Record ErrorData := mkError { sqlerrcode : sqlerrcode_t; message : string }.

Inductive Result (A : Type) :=
| OK (a : A)
| Raise (e : ErrorData).
Arguments OK {A} a.
Arguments Raise {A} e.

#[global] Instance Result_ret : MRet Result := fun A a => OK a.
#[global] Instance Result_bind : MBind Result := fun A B k m =>
  match m with
  | OK a => k a
  | Raise e => Raise e
  end.

(** [elog(ERROR, msg)] *)
Definition elog {A} (msg : string) : Result A :=
  Raise (mkError ERRCODE_INTERNAL_ERROR msg).

(** [ereport(ERROR, (errcode(code), errmsg(msg)))] *)
Definition ereport {A} (code : sqlerrcode_t) (msg : string) : Result A :=
  Raise (mkError code msg).

(** A failed [Assert(condition)], or the NULL dereference behind it. *)
Definition trap {A} (condition : string) : Result A :=
  Raise (mkError TRAP condition).

(** ** Expression nodes ([primnodes.h], the fields this file reads) *)

Definition Oid := Z.
Definition AttrNumber := Z.   (* int16 *)
Definition Index := Z.        (* unsigned int *)

Record Const := mkConst { consttype : Oid; constvalue : Z; constisnull : bool }.
Record Param := mkParam { paramid : Z; paramtype : Oid }.
Record Var := mkVar { varno : Index; varattno : AttrNumber; vartype : Oid }.

Inductive BoolExprType := AND_EXPR | OR_EXPR | NOT_EXPR.

#[local] Set Warnings "-register-all".

Inductive Node :=
| T_Const (con : Const)
| T_Param (param : Param)
| T_Var (var : Var)
| T_FuncExpr (funcid : Oid) (funcresulttype : Oid) (args : list Node)
| T_OpExpr (opno : Oid) (opresulttype : Oid) (args : list Node)
| T_BoolExpr (boolop : BoolExprType) (args : list Node)
| T_List (elems : list Node).

Record RestrictInfo := mkRestrictInfo { clause : Node; pseudoconstant : bool }.

(** A [Bitmapset *] as the set of its members; [NULL] is the empty set. *)
Abbreviation Bitmapset := (gset Z).

(** ** Planner structures *)

Record QualCost := mkQualCost { startup : Q; per_tuple : Q }.

Inductive RTEKind := RTE_RELATION | RTE_SUBQUERY | RTE_FUNCTION | RTE_VALUES.

Record RelOptInfo := mkRelOptInfo {
  relid : Index;
  rtekind : RTEKind;
  reltablespace : Oid;
  rows : Q;
  pages : Q;                       (* BlockNumber, converted to double *)
  tuples : Q;
  reltargetlist : list Node;
  baserestrictinfo : list RestrictInfo
}.

Record ParamPathInfo := mkParamPathInfo {
  ppi_rows : Q;
  ppi_clauses : list RestrictInfo
}.

(** The [Path] fields this file fills in, and the GpuScan extension. *)
Record GpuScanPath := mkGpuScanPath {
  path_rows : Q;
  startup_cost : Q;
  total_cost : Q;
  param_info : option ParamPathInfo;
  dev_quals : list RestrictInfo;    (* RestrictInfo run on device *)
  host_quals : list RestrictInfo;   (* RestrictInfo run on host *)
  dev_attrs : Bitmapset;            (* attrs referenced in device *)
  host_attrs : Bitmapset            (* attrs referenced in host *)
}.

(** [devtype_info] and [codegen_context] of [pg_strom.h], the fields this
    file reads. *)
Record devtype_info := mkDevType { type_ident : string; type_flags : Z }.

Record codegen_context := mkContext {
  used_params : list Node;     (* list of Const/Param in use *)
  used_vars : list Var;        (* list of Var in use *)
  extra_flags : Z              (* extra libraries to be included *)
}.

(** [memset(context, 0, sizeof(codegen_context))] *)
Definition context_zero : codegen_context := mkContext [] [] 0.

(** ** The collaborators

    What this file calls and does not define.  Each group is an interface;
    the functions of the file take an implementation of it. *)

(** PostgreSQL: the planner's estimates and the node support. *)
Class Postgres := {
  disable_cost : Q;
  cpu_tuple_cost : Q;
  get_tablespace_page_costs : Oid -> Q;       (* spc_seq_page_cost *)
  cost_qual_eval : list RestrictInfo -> QualCost;
  clauselist_selectivity : list RestrictInfo -> Q;
  get_baserel_parampathinfo : RelOptInfo -> option ParamPathInfo;
  pull_varattnos : Node -> Bitmapset -> Bitmapset;
  nodeToString : Node -> string
}.

(** PG-Strom's code generator and device type catalog ([codegen.c]). *)
Class Codegen := {
  pgstrom_codegen_available_expression : Node -> bool;
  pgstrom_codegen_expression :
    list RestrictInfo -> codegen_context
    -> Result (string * codegen_context);
  pgstrom_devtype_lookup : Oid -> option devtype_info;
  DEVTYPE_IS_VARLENA : Z
}.

(** The backend process and PG-Strom's program cache. *)
Class Backend := {
  MyProcPid : Z;
  MyDatabaseId : Oid;
  RelationGetRelid : Index -> Oid;   (* of the relation the scan opens *)
  pgstrom_get_devprog_key : string -> Z -> Z
}.

(** ** Cost estimation and clause classification *)

Section Planning.

Context `{Postgres} `{Codegen}.

Record path_cost := mkPathCost {
  pc_rows : Q; pc_startup_cost : Q; pc_total_cost : Q
}.

Definition cost_gpuscan (enable_gpuscan : bool)
    (baserel : RelOptInfo) (param_info : option ParamPathInfo)
    (dev_quals host_quals : list RestrictInfo) : path_cost :=
  let startup_cost := 0%Q in
  let run_cost := 0%Q in
  (* Mark the path with the correct row estimate *)
  let path_rows :=
    match param_info with
    | Some pi => ppi_rows pi
    | None => rows baserel
    end in
  let startup_cost :=
    if negb enable_gpuscan then (startup_cost + disable_cost)%Q
    else startup_cost in
  (* fetch estimated page cost for tablespace containing table *)
  let spc_seq_page_cost := get_tablespace_page_costs (reltablespace baserel) in
  (* disk costs *)
  let run_cost := (run_cost + spc_seq_page_cost * pages baserel)%Q in
  (* GPU costs *)
  let dev_cost := cost_qual_eval dev_quals in
  let dev_sel := clauselist_selectivity dev_quals in
  let dev_cost :=
    mkQualCost (startup dev_cost + 10000)%Q (per_tuple dev_cost / 100)%Q in
  (* CPU costs *)
  let host_cost := cost_qual_eval host_quals in
  let host_cost :=
    match param_info with
    | Some pi =>
        (* Include costs of pushed-down clauses *)
        let param_cost := cost_qual_eval (ppi_clauses pi) in
        mkQualCost (startup host_cost + startup param_cost)%Q
                   (per_tuple host_cost + per_tuple param_cost)%Q
    | None => host_cost
    end in
  (* total path cost *)
  let startup_cost :=
    (startup_cost + (startup dev_cost + startup host_cost))%Q in
  let cpu_per_tuple := (cpu_tuple_cost + per_tuple host_cost)%Q in
  let gpu_per_tuple := (cpu_tuple_cost / 100 + per_tuple dev_cost)%Q in
  let run_cost :=
    (run_cost + (gpu_per_tuple * tuples baserel +
                 cpu_per_tuple * dev_sel * tuples baserel))%Q in
  mkPathCost path_rows startup_cost (startup_cost + run_cost)%Q.

(** The four locals the [foreach] loop of [gpuscan_add_scan_path] updates. *)
Record qual_groups := mkQualGroups {
  g_dev_quals : list RestrictInfo;
  g_host_quals : list RestrictInfo;
  g_dev_attrs : Bitmapset;
  g_host_attrs : Bitmapset
}.

Definition no_groups : qual_groups := mkQualGroups [] [] ∅ ∅.

(** [lappend(list, datum)] *)
Definition lappend {A} (l : list A) (x : A) : list A := l ++ [x].

(** One iteration of the loop: check whether the qualifier can run on
    the device. *)
Definition classify_qual (g : qual_groups) (rinfo : RestrictInfo)
    : qual_groups :=
  if pgstrom_codegen_available_expression (clause rinfo) then
    mkQualGroups (lappend (g_dev_quals g) rinfo) (g_host_quals g)
                 (pull_varattnos (clause rinfo) (g_dev_attrs g))
                 (g_host_attrs g)
  else
    mkQualGroups (g_dev_quals g) (lappend (g_host_quals g) rinfo)
                 (g_dev_attrs g)
                 (pull_varattnos (clause rinfo) (g_host_attrs g)).

Definition classify_quals (quals : list RestrictInfo) : qual_groups :=
  fold_left classify_qual quals no_groups.

(** [pull_varattnos] over the clauses of a list, first to last. *)
Definition pull_clauses (quals : list RestrictInfo) (attrs : Bitmapset)
    : Bitmapset :=
  fold_left (fun attrs rinfo => pull_varattnos (clause rinfo) attrs)
            quals attrs.

Definition gpuscan_add_scan_path (enable_gpuscan : bool)
    (baserel : RelOptInfo) : Result GpuScanPath :=
  let g := classify_quals (baserestrictinfo baserel) in
  (* also, picks up Var nodes in the target list *)
  let host_attrs :=
    pull_varattnos (T_List (reltargetlist baserel)) (g_host_attrs g) in
  (* construction of the path node *)
  let param_info := get_baserel_parampathinfo baserel in
  let c := cost_gpuscan enable_gpuscan baserel param_info
                        (g_dev_quals g) (g_host_quals g) in
  OK (mkGpuScanPath (pc_rows c) (pc_startup_cost c) (pc_total_cost c)
                    param_info
                    (g_dev_quals g) (g_host_quals g)
                    (g_dev_attrs g) host_attrs).

End Planning.

(** ** Kernel source generation *)

Definition nl : string := String (ascii_of_nat 10) "".
Definition tab : string := String (ascii_of_nat 9) "".

(** printf's [%u] of a 32-bit argument and [%d]. *)
Definition fmt_u (x : Z) : string := pretty (Z.to_N (x mod 2 ^ 32)).
Definition fmt_d (x : Z) : string := pretty x.

(** Adjacent C literals, each ending in a newline. *)
Definition unlines (ls : list string) : string :=
  String.concat "" (map (fun l => l +:+ nl) ls).

(** The format of the three kernel functions, cut at its only [%s]. *)
Definition qual_cs_head : string :=
  unlines [
    "__kernel void";
    "gpuscan_qual_cs(__global kern_gpuscan *gpuscan,";
    "                __global kern_parambuf *kparams,";
    "                __global kern_column_store *kcs,";
    "                __global kern_toastbuf *toast,";
    "                __local void *local_workmem)";
    "{";
    "  pg_bool_t   rc;";
    "  cl_int      errcode;";
    "";
    "  gpuscan_local_init(local_workmem);";
    "  if (get_global_id(0) < kcs->nrows)" ]
  +:+ "    rc = ".

Definition qual_cs_tail : string :=
  unlines [
    ";";
    "  else";
    "    rc.isnull = CL_TRUE;";
    "  kern_set_error(!rc.isnull && rc.value != 0";
    "                 ? StromError_Success";
    "                 : StromError_RowFiltered);";
    "  gpuscan_writeback_result(gpuscan);";
    "}";
    "" ].

Definition qual_rs_prep_text : string :=
  unlines [
    "__kernel void";
    "gpuscan_qual_rs_prep(__global kern_row_store *krs,";
    "                     __global kern_column_store *kcs)";
    "{";
    "  kern_row_to_column_prep(krs,kcs,";
    "                          lengthof(used_vars),";
    "                          used_vars);";
    "}";
    "" ].

Definition qual_rs_text : string :=
  unlines [
    "__kernel void";
    "gpuscan_qual_rs(__global kern_gpuscan *gpuscan,";
    "                __global kern_parambuf *kparams,";
    "                __global kern_row_store *krs,";
    "                __global kern_column_store *kcs,";
    "                __local void *local_workmem)";
    "{";
    "  kern_row_to_column(krs,kcs,";
    "                     lengthof(used_vars),";
    "                     used_vars,";
    "                     local_workmem);";
    "  gpuscan_qual_cs(gpuscan,kparams,kcs,";
    "                  (kern_toastbuf *)krs,";
    "                  local_workmem);";
    "}" ].

Section Generation.

Context `{Postgres} `{Codegen}.

(** [dtype = pgstrom_devtype_lookup(oid); Assert(dtype != NULL);] followed
    by [dtype->type_ident]. *)
Definition devtype_of (type_oid : Oid) : Result devtype_info :=
  match pgstrom_devtype_lookup type_oid with
  | Some dtype => OK dtype
  | None => trap "dtype != NULL"
  end.

Definition is_varlena (dtype : devtype_info) : bool :=
  bool_decide (Z.land (type_flags dtype) DEVTYPE_IS_VARLENA <> 0).

Definition kparam_define (index : Z) (dtype : devtype_info) : string :=
  "#define KPARAM_" +:+ fmt_u index +:+ tab +:+
  "pg_" +:+ type_ident dtype +:+ "_param(kparams," +:+ fmt_d index +:+ ")"
  +:+ nl.

Definition kvar_define (index : Z) (dtype : devtype_info) : string :=
  if is_varlena dtype then
    "#define KVAR_" +:+ fmt_u index +:+ tab +:+
    "pg_" +:+ type_ident dtype +:+ "_vref(kcs,toast," +:+ fmt_u index
    +:+ ",get_global_id(0))" +:+ nl
  else
    "#define KVAR_" +:+ fmt_u index +:+ tab +:+
    "pg_" +:+ type_ident dtype +:+ "_vref(kcs," +:+ fmt_u index
    +:+ ",get_global_id(0))" +:+ nl.

(** Put param/const definitions: the first [foreach], with its running
    [index] and the buffer [str]. *)
Fixpoint put_param_defs (cells : list Node) (index : Z) (str : string)
    : Result string :=
  match cells with
  | [] => OK str
  | T_Const con :: rest =>
      dtype ← devtype_of (consttype con);
      put_param_defs rest (index + 1) (str +:+ kparam_define index dtype)
  | T_Param param :: rest =>
      dtype ← devtype_of (paramtype param);
      put_param_defs rest (index + 1) (str +:+ kparam_define index dtype)
  | node :: _ => elog ("unexpected node: " +:+ nodeToString node)
  end.

(** Put Var definition for row-store: the second [foreach]. *)
Fixpoint put_var_defs (cells : list Var) (index : Z) (str : string)
    : Result string :=
  match cells with
  | [] => OK str
  | var :: rest =>
      dtype ← devtype_of (vartype var);
      put_var_defs rest (index + 1) (str +:+ kvar_define index dtype)
  end.

(** Columns to be referenced: the third [foreach]; [is_head] is
    [cell == list_head(context->used_vars)]. *)
Fixpoint put_used_vars (cells : list Var) (is_head : bool) (str : string)
    : string :=
  match cells with
  | [] => str
  | var :: rest =>
      put_used_vars rest false
        (str +:+ (if is_head then "" else ", ") +:+ fmt_u (varattno var))
  end.

Definition gpuscan_codegen_quals (dev_quals : list RestrictInfo)
    (context : codegen_context)
    : Result (option string * codegen_context) :=
  let context := context_zero in
  match dev_quals with
  | [] => OK (None, context)
  | _ =>
      '(expr_code, context) ← pgstrom_codegen_expression dev_quals context;
      let str := "" in                                  (* initStringInfo *)
      str ← put_param_defs (used_params context) 0 str;
      str ← put_var_defs (used_vars context) 0 str;
      let str := str +:+ nl +:+
                 "static __constant cl_ushort pg_used_vars[]={" in
      let str := put_used_vars (used_vars context) true str in
      let str := str +:+ "};" +:+ nl +:+ nl in
      (* qualifier definition with row-store *)
      let str := str +:+ qual_cs_head +:+ expr_code +:+ qual_cs_tail
                 +:+ qual_rs_prep_text +:+ qual_rs_text in
      OK (Some str, context)
  end.

(** What the three loops take for granted of the context: a used
    parameter is a [Const] or a [Param] of a type the device knows, a
    used variable is of such a type. *)
Definition param_type (node : Node) : option Oid :=
  match node with
  | T_Const con => Some (consttype con)
  | T_Param param => Some (paramtype param)
  | _ => None
  end.

Definition param_has_devtype (node : Node) : Prop :=
  exists oid, param_type node = Some oid
              /\ is_Some (pgstrom_devtype_lookup oid).

Definition var_has_devtype (var : Var) : Prop :=
  is_Some (pgstrom_devtype_lookup (vartype var)).

(** The accessors of a device type, [pg_<type>_param] and
    [pg_<type>_vref]. *)
Definition is_accessor (s : string) : Prop :=
  exists oid dtype,
    pgstrom_devtype_lookup oid = Some dtype
    /\ (s = "pg_" +:+ type_ident dtype +:+ "_param"
        \/ s = "pg_" +:+ type_ident dtype +:+ "_vref").

End Generation.

(** ** Plan node and scan state *)

Record GpuScanPlan := mkGpuScanPlan {
  plan_targetlist : list Node;
  plan_qual : list Node;            (* host clauses *)
  scanrelid : Index;                (* index of the range table *)
  kern_source : option string;      (* source of opencl kernel, or NULL *)
  plan_extra_flags : Z;             (* extra libraries to be included *)
  plan_used_params : list Node;     (* list of Const/Param in use *)
  plan_used_vars : list Var;        (* list of Var in use *)
  dev_clauses : list Node;          (* clauses to be run on device *)
  plan_dev_attrs : Bitmapset;       (* attrs referenced in device *)
  plan_host_attrs : Bitmapset       (* attrs referenced in host *)
}.

(** Gpuscan strategies to scan a relation. *)
Definition GpuScanMode_CacheOnlyScan : Z := 0x0001.
Definition GpuScanMode_HybridScan : Z := 0x0002.
Definition GpuScanMode_HeapOnlyScan : Z := 0x0003.
Definition GpuScanMode_CreateCache : Z := 0x0004.

Definition GpuScanModes : list Z :=
  [ GpuScanMode_CacheOnlyScan; GpuScanMode_HybridScan;
    GpuScanMode_HeapOnlyScan; GpuScanMode_CreateCache ].

(** The resources a scan takes from the other PG-Strom modules, and what
    happens to them.  A handle is the pointer the allocator returned. *)
Inductive resource := ShmemContext | MsgQueue | ParamBuf.
Definition handle := positive.

Inductive event :=
| Acquired (r : resource) (h : handle)
| Released (r : resource) (h : handle).

#[global] Instance resource_eq_dec : EqDecision resource.
Proof. solve_decision. Defined.
#[global] Instance event_eq_dec : EqDecision event.
Proof. solve_decision. Defined.

(** Modelled from the spec: the resource-acquisition calls of [shmem.c] and
    [mqueue.c], which are not part of this file.  [supply r] is what the
    next allocation of [r] returns ([None] is NULL, the allocation failed);
    [history] records every successful acquisition and every release, oldest
    first. *)
Record World := mkWorld {
  supply : resource -> option handle;
  history : list event
}.

Definition acquire (r : resource) (w : World) : option handle * World :=
  match supply w r with
  | Some h => (Some h, mkWorld (supply w) (history w ++ [Acquired r h]))
  | None => (None, w)
  end.

Definition pgstrom_shmem_context_create (name : string) (w : World) :=
  acquire ShmemContext w.
Definition pgstrom_create_queue (w : World) := acquire MsgQueue w.
Definition pgstrom_create_parambuf (shmcontext : option handle) (w : World) :=
  acquire ParamBuf w.

(** How often [h] of kind [r] has been released, and whether it is still
    held. *)
Definition release_count (r : resource) (h : handle) (w : World) : nat :=
  length (List.filter (fun e => bool_decide (e = Released r h)) (history w)).

Definition held (r : resource) (h : handle) (w : World) : Prop :=
  In (Acquired r h) (history w) /\ release_count r h w = 0%nat.

Record GpuScanState := mkGpuScanState {
  scan_mode : Z;
  shmcontext : option handle;
  mqueue : option handle;
  parambuf : option handle;
  dprog_key : Z;
  ready_chunks : list Z;
  free_chunks : list Z
}.

(** A callback of the executor: it sees the world and either returns or
    raises. *)
Definition Exec (A : Type) : Type := World -> Result A * World.

(** [snprintf(buf, size, ...)] keeps at most [size - 1] characters. *)
Definition snprintf (size : nat) (s : string) : string :=
  String.substring 0 (size - 1) s.

Definition NAMEDATALEN : nat := 64.

Section Execution.

Context `{Backend}.

(** The initialisation of the PostgreSQL side of the node (expression
    context, tuple slots, heap scan, projection) comes first and is left
    to the executor; the model starts at "Let's have GPU stuff
    initialization". *)
Definition gpuscan_begin (gsplan : GpuScanPlan) : Exec GpuScanState :=
  fun w =>
  let scanrelid := scanrelid gsplan in
  let scan_mode := GpuScanMode_HeapOnlyScan in
  let namebuf :=
    snprintf (NAMEDATALEN + 1)
      ("gpuscan(pid:" +:+ fmt_u MyProcPid +:+
       ", datoid:" +:+ fmt_u MyDatabaseId +:+
       ", reloid:" +:+ fmt_u (RelationGetRelid scanrelid) +:+
       ", rtindex:" +:+ fmt_u scanrelid) in
  let '(shmcontext, w) := pgstrom_shmem_context_create namebuf w in
  if decide (shmcontext = None) then
    (ereport ERRCODE_OUT_OF_MEMORY "failed to create shared memory context",
     w)
  else
  (* TODO: add resource tracking here *)
  let '(mqueue, w) := pgstrom_create_queue w in
  if decide (mqueue = None) then
    (ereport ERRCODE_OUT_OF_MEMORY "failed to create message queue", w)
  else
  (* TODO: add resource tracking here *)
  let '(parambuf, w) := pgstrom_create_parambuf shmcontext w in
  let dprog_key :=
    match kern_source gsplan with
    | Some src => pgstrom_get_devprog_key src (plan_extra_flags gsplan)
    | None => 0
    end in
  (* TODO: add resource tracking here *)
  (OK (mkGpuScanState scan_mode shmcontext mqueue parambuf dprog_key [] []),
   w).

(** [gpuscan_exec] and [gpuscan_end] have empty bodies: nothing is read
    and nothing is written (the slot [gpuscan_exec] hands back is
    whatever the caller finds there, and is not modelled). *)
Definition gpuscan_exec (node : GpuScanState) : Exec GpuScanState :=
  fun w => (OK node, w).

Definition gpuscan_exec_multi (node : GpuScanState) : Exec GpuScanState :=
  fun w => (elog "not implemented yet", w).

Definition gpuscan_end (node : GpuScanState) : Exec GpuScanState :=
  fun w => (OK node, w).

Definition gpuscan_rescan (node : GpuScanState) : Exec GpuScanState :=
  fun w => (elog "not implemented yet", w).

(** The plan methods [pgstrom_init_gpuscan] registers, as the executor
    calls them on an initialised node. *)
Inductive plan_method :=
| ExecCustomPlan | MultiExecCustomPlan | EndCustomPlan | ReScanCustomPlan.

Definition gpuscan_plan_methods (m : plan_method)
    : GpuScanState -> Exec GpuScanState :=
  match m with
  | ExecCustomPlan => gpuscan_exec
  | MultiExecCustomPlan => gpuscan_exec_multi
  | EndCustomPlan => gpuscan_end
  | ReScanCustomPlan => gpuscan_rescan
  end.

(** A scan after [gpuscan_begin]: the executor's calls in order, up to
    the first one that raises. *)
Fixpoint run_methods (ms : list plan_method) (node : GpuScanState)
    : Exec GpuScanState :=
  fun w =>
  match ms with
  | [] => (OK node, w)
  | m :: rest =>
      match gpuscan_plan_methods m node w with
      | (OK node', w') => run_methods rest node' w'
      | (Raise e, w') => (Raise e, w')
      end
  end.

End Execution.

(** ** Copying a plan node

    [gpuscan_copy_plan] is about pointers: which fields of the copy point
    to fresh objects and which to the objects of the original.  Here the
    plan node is laid out as in memory, its reference fields are
    addresses. *)

Module Mem.

Definition addr := positive.
Definition pointer := option addr.          (* [None] is NULL *)

Inductive object :=
| NodeList (elems : list Node)              (* a [List] and its nodes *)
| Bitmap (members : gset Z)                 (* a [Bitmapset] *)
| CString (chars : string).

Abbreviation memory := (gmap addr object).

Definition deref (m : memory) (p : pointer) : option object :=
  a ← p; m !! a.

(** [palloc] of room for [o], initialised with it. *)
Definition alloc (o : object) (m : memory) : addr * memory :=
  let a := fresh (dom m) in (a, <[a := o]> m).

(** PostgreSQL's [copyObject] and [bms_copy]: NULL for NULL, otherwise
    a newly allocated copy.  (A pointer to nothing is not a value the
    planner hands out; the model gives NULL for it.) *)
Definition copyObject (p : pointer) (m : memory) : pointer * memory :=
  match deref m p with
  | Some o => let '(a, m') := alloc o m in (Some a, m')
  | None => (None, m)
  end.

Definition bms_copy (p : pointer) (m : memory) : pointer * memory :=
  copyObject p m.

Record CustomPlan := mkCustomPlan {
  targetlist : pointer;
  qual : pointer
}.

Record GpuScanPlan := mkGpuScanPlan {
  cplan : CustomPlan;
  scanrelid : Index;          (* index of the range table *)
  kern_source : pointer;      (* source of opencl kernel *)
  extra_flags : Z;            (* extra libraries to be included *)
  used_params : pointer;      (* list of Const/Param in use *)
  used_vars : pointer;        (* list of Var in use *)
  dev_clauses : pointer;      (* clauses to be run on device *)
  dev_attrs : pointer;        (* attrs referenced in device *)
  host_attrs : pointer        (* attrs referenced in host *)
}.

(** [node->field = value] *)
Definition set_cplan v n :=
  mkGpuScanPlan v (scanrelid n) (kern_source n) (extra_flags n)
    (used_params n) (used_vars n) (dev_clauses n) (dev_attrs n)
    (host_attrs n).
Definition set_scanrelid v n :=
  mkGpuScanPlan (cplan n) v (kern_source n) (extra_flags n)
    (used_params n) (used_vars n) (dev_clauses n) (dev_attrs n)
    (host_attrs n).
Definition set_extra_flags v n :=
  mkGpuScanPlan (cplan n) (scanrelid n) (kern_source n) v
    (used_params n) (used_vars n) (dev_clauses n) (dev_attrs n)
    (host_attrs n).
Definition set_used_params v n :=
  mkGpuScanPlan (cplan n) (scanrelid n) (kern_source n) (extra_flags n)
    v (used_vars n) (dev_clauses n) (dev_attrs n) (host_attrs n).
Definition set_used_vars v n :=
  mkGpuScanPlan (cplan n) (scanrelid n) (kern_source n) (extra_flags n)
    (used_params n) v (dev_clauses n) (dev_attrs n) (host_attrs n).
Definition set_dev_clauses v n :=
  mkGpuScanPlan (cplan n) (scanrelid n) (kern_source n) (extra_flags n)
    (used_params n) (used_vars n) v (dev_attrs n) (host_attrs n).
Definition set_dev_attrs v n :=
  mkGpuScanPlan (cplan n) (scanrelid n) (kern_source n) (extra_flags n)
    (used_params n) (used_vars n) (dev_clauses n) v (host_attrs n).
Definition set_host_attrs v n :=
  mkGpuScanPlan (cplan n) (scanrelid n) (kern_source n) (extra_flags n)
    (used_params n) (used_vars n) (dev_clauses n) (dev_attrs n) v.

(** [CopyCustomPlanCommon(from, newnode)] copies the fields of the
    embedded [CustomPlan]; the target list and the qualifier are node
    trees and go through [copyObject]. *)
Definition CopyCustomPlanCommon (from : CustomPlan) (m : memory)
    : CustomPlan * memory :=
  let '(tl, m) := copyObject (targetlist from) m in
  let '(ql, m) := copyObject (qual from) m in
  (mkCustomPlan tl ql, m).

(** [palloc] does not clear what it returns: [newnode] starts out as
    whatever was in that memory, here [garbage]. *)
Definition gpuscan_copy_plan (garbage : GpuScanPlan) (from : GpuScanPlan)
    (m : memory) : GpuScanPlan * memory :=
  let newnode := garbage in
  let '(cp, m) := CopyCustomPlanCommon (cplan from) m in
  let newnode := set_cplan cp newnode in
  let newnode := set_scanrelid (scanrelid from) newnode in
  let '(p, m) := copyObject (used_params from) m in
  let newnode := set_used_params p newnode in
  let '(p, m) := copyObject (used_vars from) m in
  let newnode := set_used_vars p newnode in
  let newnode := set_extra_flags (extra_flags from) newnode in
  let newnode := set_dev_clauses (dev_clauses from) newnode in
  let '(p, m) := bms_copy (dev_attrs from) m in
  let newnode := set_dev_attrs p newnode in
  let '(p, m) := bms_copy (host_attrs from) m in
  let newnode := set_host_attrs p newnode in
  (newnode, m).

(** [p] is NULL or points to an object of [m]. *)
Definition valid (m : memory) (p : pointer) : Prop :=
  match p with
  | None => True
  | Some a => is_Some (m !! a)
  end.

(** Every reference field of the node is NULL or points into [m]. *)
Definition valid_plan (m : memory) (n : GpuScanPlan) : Prop :=
  valid m (targetlist (cplan n)) /\ valid m (qual (cplan n))
  /\ valid m (kern_source n)
  /\ valid m (used_params n) /\ valid m (used_vars n)
  /\ valid m (dev_clauses n)
  /\ valid m (dev_attrs n) /\ valid m (host_attrs n).

(** [p'] in [m'] is a copy of [p] in [m]: it holds the same object, at an
    address [m] did not have (and is NULL only when [p] is). *)
Definition is_copy (m m' : memory) (p p' : pointer) : Prop :=
  deref m' p' = deref m p
  /\ match p' with
     | Some a' => m !! a' = None
     | None => p = None
     end.

(** A node to copy: it has a kernel source, one used parameter and one
    device clause, and nothing else; and what an allocation may hold. *)
Definition sample_memory : memory :=
  <[1%positive := CString "__kernel void"]>
    (<[2%positive := NodeList [T_Const (mkConst 23 5 false)]]>
       (<[3%positive := NodeList [T_Var (mkVar 1 1 23)]]> ∅)).

Definition sample_node : GpuScanPlan :=
  mkGpuScanPlan (mkCustomPlan None None) 1 (Some 1%positive) 0
    (Some 2%positive) None (Some 3%positive) None None.

Definition sample_garbage : GpuScanPlan :=
  mkGpuScanPlan (mkCustomPlan None None) 99 (Some 77%positive) 99
    None None None None None.

End Mem.

(** ** Sample collaborators

    [codegen.c] and the planner are not among the sources; the functions
    above take them as the interfaces [Postgres], [Codegen] and [Backend].
    The definitions below implement the interfaces once, to run
    [gpuscan_add_scan_path], [gpuscan_codegen_quals] and [gpuscan_begin]
    on concrete clauses and plans. *)

#[global] Instance Const_eq_dec : EqDecision Const.
Proof. solve_decision. Defined.
#[global] Instance Param_eq_dec : EqDecision Param.
Proof. solve_decision. Defined.
#[global] Instance Var_eq_dec : EqDecision Var.
Proof. solve_decision. Defined.
#[global] Instance BoolExprType_eq_dec : EqDecision BoolExprType.
Proof. solve_decision. Defined.

(** PostgreSQL's [equal()] on the nodes above. *)
Fixpoint Node_eqb (a b : Node) {struct a} : bool :=
  let fix list_eqb (l1 l2 : list Node) {struct l1} : bool :=
    match l1, l2 with
    | [], [] => true
    | x :: l1', y :: l2' => Node_eqb x y && list_eqb l1' l2'
    | _, _ => false
    end in
  match a, b with
  | T_Const c1, T_Const c2 => bool_decide (c1 = c2)
  | T_Param p1, T_Param p2 => bool_decide (p1 = p2)
  | T_Var v1, T_Var v2 => bool_decide (v1 = v2)
  | T_FuncExpr f1 r1 l1, T_FuncExpr f2 r2 l2 =>
      bool_decide (f1 = f2) && bool_decide (r1 = r2) && list_eqb l1 l2
  | T_OpExpr o1 r1 l1, T_OpExpr o2 r2 l2 =>
      bool_decide (o1 = o2) && bool_decide (r1 = r2) && list_eqb l1 l2
  | T_BoolExpr b1 l1, T_BoolExpr b2 l2 =>
      bool_decide (b1 = b2) && list_eqb l1 l2
  | T_List l1, T_List l2 => list_eqb l1 l2
  | _, _ => false
  end.

(** Type OIDs of [pg_type.h]. *)
Definition BOOLOID : Oid := 16.
Definition INT8OID : Oid := 20.
Definition INT2OID : Oid := 21.
Definition INT4OID : Oid := 23.
Definition TEXTOID : Oid := 25.
Definition FLOAT4OID : Oid := 700.
Definition FLOAT8OID : Oid := 701.

(** Modelled from the spec: the device type catalog [pgstrom_devtype_lookup]
    of [codegen.c], "lookup(logical_type) -> {device_type_name,
    is_variable_length}", over the scalar types [opencl_catalog.h]
    enumerates.  None of them is variable-length. *)
Definition sample_devtype_lookup (type_oid : Oid) : option devtype_info :=
  if decide (type_oid = BOOLOID) then Some (mkDevType "bool" 0)
  else if decide (type_oid = INT2OID) then Some (mkDevType "int2" 0)
  else if decide (type_oid = INT4OID) then Some (mkDevType "int4" 0)
  else if decide (type_oid = INT8OID) then Some (mkDevType "int8" 0)
  else if decide (type_oid = FLOAT4OID) then Some (mkDevType "float4" 0)
  else if decide (type_oid = FLOAT8OID) then Some (mkDevType "float8" 0)
  else None.

Definition sample_DEVTYPE_IS_VARLENA : Z := 0x0001.

(** Modelled from the spec: the device function catalog of [codegen.c];
    a few comparison operators of [pg_operator.h] and the name of their
    device-side counterpart. *)
Definition sample_devfunc_lookup (oid : Oid) : option string :=
  if decide (oid = 96) then Some "int4eq"
  else if decide (oid = 97) then Some "int4lt"
  else if decide (oid = 521) then Some "int4gt"
  else if decide (oid = 672) then Some "float8lt"
  else if decide (oid = 674) then Some "float8gt"
  else None.

(** Modelled from the spec: [pgstrom_codegen_available_expression] of
    [codegen.c], "every operator/function/type appearing in the subtree
    must have a known device-side counterpart". *)
Fixpoint sample_codegen_available_expression (node : Node) : bool :=
  let fix all_available (l : list Node) : bool :=
    match l with
    | [] => true
    | x :: l' => sample_codegen_available_expression x && all_available l'
    end in
  match node with
  | T_Const con => bool_decide (is_Some (sample_devtype_lookup (consttype con)))
  | T_Param param =>
      bool_decide (is_Some (sample_devtype_lookup (paramtype param)))
  | T_Var var => bool_decide (is_Some (sample_devtype_lookup (vartype var)))
  | T_FuncExpr funcid rettype args =>
      bool_decide (is_Some (sample_devfunc_lookup funcid))
      && bool_decide (is_Some (sample_devtype_lookup rettype))
      && all_available args
  | T_OpExpr opno rettype args =>
      bool_decide (is_Some (sample_devfunc_lookup opno))
      && bool_decide (is_Some (sample_devtype_lookup rettype))
      && all_available args
  | T_BoolExpr _ args => all_available args
  | T_List elems => all_available elems
  end.

(** Modelled from the spec: PostgreSQL's [pull_varattnos], "walks an
    expression tree and returns the set of column ordinals it reads",
    accumulating into the caller's set. *)
Fixpoint sample_pull_varattnos (node : Node) (varattnos : Bitmapset)
    : Bitmapset :=
  let fix pull_list (l : list Node) (acc : Bitmapset) : Bitmapset :=
    match l with
    | [] => acc
    | x :: l' => pull_list l' (sample_pull_varattnos x acc)
    end in
  match node with
  | T_Const _ | T_Param _ => varattnos
  | T_Var var => {[ varattno var ]} ∪ varattnos
  | T_FuncExpr _ _ args | T_OpExpr _ _ args | T_BoolExpr _ args =>
      pull_list args varattnos
  | T_List elems => pull_list elems varattnos
  end.

(** Position of the first element [eqb x], counting from [i]. *)
Fixpoint index_from {A} (eqb : A -> bool) (l : list A) (i : Z) : option Z :=
  match l with
  | [] => None
  | y :: l' => if eqb y then Some i else index_from eqb l' (i + 1)
  end.

Definition intern_param (node : Node) (ctx : codegen_context)
    : Z * codegen_context :=
  match index_from (Node_eqb node) (used_params ctx) 0 with
  | Some i => (i, ctx)
  | None => (Z.of_nat (length (used_params ctx)),
             mkContext (used_params ctx ++ [node]) (used_vars ctx)
                       (extra_flags ctx))
  end.

Definition intern_var (var : Var) (ctx : codegen_context)
    : Z * codegen_context :=
  match index_from (fun v => bool_decide (v = var)) (used_vars ctx) 0 with
  | Some i => (i, ctx)
  | None => (Z.of_nat (length (used_vars ctx)),
             mkContext (used_params ctx) (used_vars ctx ++ [var])
                       (extra_flags ctx))
  end.

Definition join (sep : string) (ls : list string) : string :=
  String.concat sep ls.

(** Modelled from the spec: [pgstrom_codegen_expression] of [codegen.c],
    "recursively emit a kernel-dialect expression string, accumulating
    every distinct constant/parameter node into the used-params sequence
    and every distinct column reference into the used-vars sequence,
    assigning each a 0-based index on first occurrence"; a list is the
    conjunction of its members; a node without device mapping is a fatal
    internal error. *)
Fixpoint sample_codegen_node (node : Node) (ctx : codegen_context)
    : Result (string * codegen_context) :=
  let fix codegen_list (l : list Node) (ctx : codegen_context)
      : Result (list string * codegen_context) :=
    match l with
    | [] => OK ([], ctx)
    | x :: l' =>
        '(s, ctx) ← sample_codegen_node x ctx;
        '(ss, ctx) ← codegen_list l' ctx;
        OK (s :: ss, ctx)
    end in
  let call (fn : string) (l : list Node) :=
    '(ss, ctx) ← codegen_list l ctx;
    OK (fn +:+ "(" +:+ join ", " ss +:+ ")", ctx) in
  match node with
  | T_Const con =>
      match sample_devtype_lookup (consttype con) with
      | Some _ => let '(i, ctx) := intern_param node ctx in
                  OK ("KPARAM_" +:+ fmt_u i, ctx)
      | None => elog "codegen: unsupported type of constant"
      end
  | T_Param param =>
      match sample_devtype_lookup (paramtype param) with
      | Some _ => let '(i, ctx) := intern_param node ctx in
                  OK ("KPARAM_" +:+ fmt_u i, ctx)
      | None => elog "codegen: unsupported type of parameter"
      end
  | T_Var var =>
      match sample_devtype_lookup (vartype var) with
      | Some _ => let '(i, ctx) := intern_var var ctx in
                  OK ("KVAR_" +:+ fmt_u i, ctx)
      | None => elog "codegen: unsupported type of variable"
      end
  | T_FuncExpr oid _ args | T_OpExpr oid _ args =>
      match sample_devfunc_lookup oid with
      | Some fn => call ("pgfn_" +:+ fn) args
      | None => elog "codegen: unsupported function or operator"
      end
  | T_BoolExpr AND_EXPR args => call "pgfn_boolop_and" args
  | T_BoolExpr OR_EXPR args => call "pgfn_boolop_or" args
  | T_BoolExpr NOT_EXPR args => call "pgfn_boolop_not" args
  | T_List [single] => sample_codegen_node single ctx
  | T_List elems => call "pgfn_boolop_and" elems
  end.

Definition sample_codegen_expression (dev_quals : list RestrictInfo)
    (ctx : codegen_context) : Result (string * codegen_context) :=
  sample_codegen_node (T_List (map clause dev_quals)) ctx.

Definition sample_nodeToString (node : Node) : string :=
  match node with
  | T_Const _ => "{CONST}" | T_Param _ => "{PARAM}" | T_Var _ => "{VAR}"
  | T_FuncExpr _ _ _ => "{FUNCEXPR}" | T_OpExpr _ _ _ => "{OPEXPR}"
  | T_BoolExpr _ _ => "{BOOLEXPR}" | T_List _ => "(list)"
  end.

(** The clauses of "colA > 5 AND colB LIKE '%x%'" over (colA int4,
    colB text): [>] is operator 521, [~~] is operator 1209. *)
Definition colA : Var := mkVar 1 1 INT4OID.
Definition colB : Var := mkVar 1 2 TEXTOID.
Definition colA_gt_5 : RestrictInfo :=
  mkRestrictInfo
    (T_OpExpr 521 BOOLOID [T_Var colA; T_Const (mkConst INT4OID 5 false)])
    false.
Definition colB_like_x : RestrictInfo :=
  mkRestrictInfo
    (T_OpExpr 1209 BOOLOID [T_Var colB; T_Const (mkConst TEXTOID 0 false)])
    false.
Definition colA_lt_9 : RestrictInfo :=
  mkRestrictInfo
    (T_OpExpr 97 BOOLOID [T_Var colA; T_Const (mkConst INT4OID 9 false)])
    false.

(** A planner to run the cost model with: PostgreSQL's default
    [cpu_tuple_cost] and [disable_cost], unit page cost, a quarter of
    [cpu_tuple_cost] to evaluate a clause list and a selectivity of one
    half for it. *)
Definition sample_disable_cost : Q := 10000000000.
Definition sample_cpu_tuple_cost : Q := 0.01.
Definition sample_page_costs (spc : Oid) : Q := 1.
Definition sample_cost_qual_eval (quals : list RestrictInfo) : QualCost :=
  match quals with
  | [] => mkQualCost 0 0
  | _ => mkQualCost 0 0.0025
  end.
Definition sample_selectivity (quals : list RestrictInfo) : Q :=
  match quals with
  | [] => 1
  | _ => 0.5
  end.
Definition sample_parampathinfo (rel : RelOptInfo) : option ParamPathInfo :=
  None.

Definition sample_rel : RelOptInfo :=
  mkRelOptInfo 1 RTE_RELATION 0 500 10 1000
    [T_Var colA; T_Var colB] [colA_gt_5; colB_like_x].

(** The same relation with other row estimates. *)
Definition with_estimates (rows' tuples' : Q) (rel : RelOptInfo)
    : RelOptInfo :=
  mkRelOptInfo (relid rel) (rtekind rel) (reltablespace rel) rows'
    (pages rel) tuples' (reltargetlist rel) (baserestrictinfo rel).

Definition with_ppi_rows (rows' : Q) (pi : ParamPathInfo) : ParamPathInfo :=
  mkParamPathInfo rows' (ppi_clauses pi).

(** ** Symbols of a program text

    The words of a text are its maximal runs of letters, digits and
    underscores; a symbol is a word that does not start with a digit. *)

Definition is_digit (c : ascii) : bool :=
  let n := nat_of_ascii c in (48 <=? n)%nat && (n <=? 57)%nat.

Definition is_alpha (c : ascii) : bool :=
  let n := nat_of_ascii c in
  ((65 <=? n)%nat && (n <=? 90)%nat) || ((97 <=? n)%nat && (n <=? 122)%nat).

Definition is_ident_char (c : ascii) : bool :=
  is_digit c || is_alpha c || (nat_of_ascii c =? 95)%nat.

Definition flush (word : string) : list string :=
  match word with
  | "" => []
  | _ => [word]
  end.

Fixpoint words_from (word : string) (s : string) : list string :=
  match s with
  | "" => flush word
  | String c s' =>
      if is_ident_char c then words_from (word +:+ String c "") s'
      else flush word ++ words_from "" s'
  end.

Definition words (s : string) : list string := words_from "" s.

Definition is_symbol (w : string) : bool :=
  match w with
  | "" => false
  | String c _ => negb (is_digit c)
  end.

Definition symbols (s : string) : list string :=
  List.filter is_symbol (words s).

Fixpoint all_ident (s : string) : bool :=
  match s with
  | "" => true
  | String c s' => is_ident_char c && all_ident s'
  end.

(** Whether a text ends, or starts, between two words. *)
Fixpoint ends_with_sep (s : string) : bool :=
  match s with
  | "" => true
  | String c "" => negb (is_ident_char c)
  | String _ s' => ends_with_sep s'
  end.

Definition starts_with_sep (s : string) : bool :=
  match s with
  | "" => true
  | String c _ => negb (is_ident_char c)
  end.

Fixpoint all_digits (s : string) : bool :=
  match s with
  | "" => true
  | String c s' => is_digit c && all_digits s'
  end.

(** What a generated kernel source declares itself: one macro for each
    used parameter and variable, the array of used columns, the three
    kernel functions and the two locals of [gpuscan_qual_cs]. *)
Definition kparam_name (i : nat) : string := "KPARAM_" +:+ fmt_u (Z.of_nat i).
Definition kvar_name (i : nat) : string := "KVAR_" +:+ fmt_u (Z.of_nat i).

Definition declared_symbols (context : codegen_context) : list string :=
  map kparam_name (seq 0 (length (used_params context)))
  ++ map kvar_name (seq 0 (length (used_vars context)))
  ++ [ "pg_used_vars";
       "gpuscan_qual_cs"; "gpuscan_qual_rs_prep"; "gpuscan_qual_rs";
       "rc"; "errcode" ].

(** The buffer and parameter arguments of the three kernel functions. *)
Definition entry_point_arguments : list string :=
  [ "gpuscan"; "kparams"; "kcs"; "toast"; "local_workmem"; "krs" ].

(** Words of the OpenCL C dialect: the preprocessor directive, qualifiers
    and keywords, and the work-item built-in. *)
Definition opencl_words : list string :=
  [ "define"; "static"; "__constant"; "__kernel"; "__global"; "__local";
    "void"; "if"; "else"; "get_global_id" ].

(** Names the text takes from the PG-Strom device runtime that is compiled
    with it: types and their members, status codes, helper functions. *)
Definition device_runtime_symbols : list string :=
  [ "cl_ushort"; "cl_int"; "CL_TRUE"; "lengthof";
    "kern_gpuscan"; "kern_parambuf"; "kern_column_store"; "kern_toastbuf";
    "kern_row_store"; "nrows";
    "pg_bool_t"; "isnull"; "value";
    "StromError_Success"; "StromError_RowFiltered";
    "gpuscan_local_init"; "kern_set_error"; "gpuscan_writeback_result";
    "kern_row_to_column_prep"; "kern_row_to_column" ].

(** A text is self-contained when each of its symbols is declared in it or
    is an argument of an entry point (or a word of the dialect). *)
Definition self_contained (context : codegen_context) (src : string) : Prop :=
  forall s, In s (symbols src) ->
    In s (declared_symbols context) \/ In s entry_point_arguments
    \/ In s opencl_words.

(** ** The scan mode by column residency

    The rule the header comment of the scan modes describes, in the words
    of the specification: all referenced columns in the columnar cache,
    cache-only scan; the columns of the device qualifier in the cache but
    not those of the projection, hybrid scan; otherwise the heap is read,
    and optionally a cache entry is constructed. *)
Definition spec_scan_mode (cached : Bitmapset) (create_cache : bool)
    (dev_attrs host_attrs : Bitmapset) : Z :=
  if decide (dev_attrs ∪ host_attrs ⊆ cached) then GpuScanMode_CacheOnlyScan
  else if decide (dev_attrs ⊆ cached) then GpuScanMode_HybridScan
  else if create_cache then GpuScanMode_CreateCache
  else GpuScanMode_HeapOnlyScan.

(** The sample collaborators, as implementations of the interfaces. *)
Definition sample_postgres : Postgres := {|
  disable_cost := sample_disable_cost;
  cpu_tuple_cost := sample_cpu_tuple_cost;
  get_tablespace_page_costs := sample_page_costs;
  cost_qual_eval := sample_cost_qual_eval;
  clauselist_selectivity := sample_selectivity;
  get_baserel_parampathinfo := sample_parampathinfo;
  pull_varattnos := sample_pull_varattnos;
  nodeToString := sample_nodeToString
|}.

Definition sample_codegen : Codegen := {|
  pgstrom_codegen_available_expression := sample_codegen_available_expression;
  pgstrom_codegen_expression := sample_codegen_expression;
  pgstrom_devtype_lookup := sample_devtype_lookup;
  DEVTYPE_IS_VARLENA := sample_DEVTYPE_IS_VARLENA
|}.

Definition sample_backend : Backend := {|
  MyProcPid := 4242;
  MyDatabaseId := 16384;
  RelationGetRelid := fun rtindex => 16385 + rtindex;
  pgstrom_get_devprog_key := fun src flags => Z.of_nat (String.length src)
|}.

(** A plan for [sample_rel] and worlds to begin it in. *)
Definition sample_plan : GpuScanPlan :=
  mkGpuScanPlan [T_Var colA; T_Var colB] [clause colB_like_x] 1 None 0
    [] [] [clause colA_gt_5] {[ 1 ]} {[ 1; 2 ]}.

Definition world_of (shm mq pb : option handle) : World :=
  mkWorld (fun r => match r with
                    | ShmemContext => shm
                    | MsgQueue => mq
                    | ParamBuf => pb
                    end) [].

(** ** The layout of a generated kernel source

    The text [gpuscan_codegen_quals] is expected to print, piece by
    piece. *)

Definition kparam_macro (i : nat) (type_ident : string) : string :=
  "#define " +:+ kparam_name i +:+ tab +:+
  "pg_" +:+ type_ident +:+ "_param(kparams," +:+ fmt_d (Z.of_nat i) +:+ ")"
  +:+ nl.

Definition kvar_macro (i : nat) (type_ident : string) (varlena : bool)
    : string :=
  "#define " +:+ kvar_name i +:+ tab +:+
  "pg_" +:+ type_ident +:+
  (if varlena then "_vref(kcs,toast," else "_vref(kcs,") +:+
  fmt_u (Z.of_nat i) +:+ ",get_global_id(0))" +:+ nl.

Section Layout.

Context `{Codegen}.

(** The macro lines of the used parameters and of the used variables,
    the first of them with index [first]. *)
Fixpoint param_lines (cells : list Node) (first : nat) : list string :=
  match cells with
  | [] => []
  | node :: rest =>
      match param_type node ≫= pgstrom_devtype_lookup with
      | Some dtype => kparam_macro first (type_ident dtype)
      | None => ""
      end :: param_lines rest (S first)
  end.

Fixpoint var_lines (cells : list Var) (first : nat) : list string :=
  match cells with
  | [] => []
  | var :: rest =>
      match pgstrom_devtype_lookup (vartype var) with
      | Some dtype => kvar_macro first (type_ident dtype)
                        (is_varlena dtype)
      | None => ""
      end :: var_lines rest (S first)
  end.

End Layout.

Definition used_vars_array (vars : list Var) : string :=
  "static __constant cl_ushort pg_used_vars[]={" +:+
  join ", " (map (fun var => fmt_u (varattno var)) vars) +:+ "};".

(** How often [pat] occurs in [s]. *)
Fixpoint occurrences (pat s : string) : nat :=
  match s with
  | "" => if String.prefix pat "" then 1%nat else 0%nat
  | String _ s' =>
      ((if String.prefix pat s then 1 else 0) + occurrences pat s')%nat
  end.

(** ** The columns a path refers to *)

Section Attributes.

Context `{Postgres}.

(** What the callers of [pull_varattnos] rely on: it adds the columns of
    the node to the set it is given. *)
Definition pull_varattnos_adds : Prop :=
  forall node attrs,
    pull_varattnos node attrs = pull_varattnos node ∅ ∪ attrs.

End Attributes.

(** ** Plan construction *)

(** PostgreSQL's helpers of plan construction ([createplan.c] and
    [restrictinfo.c]). *)
Class CreatePlan := {
  use_physical_tlist : RelOptInfo -> bool;
  build_physical_tlist : RelOptInfo -> list Node;
  build_path_tlist : GpuScanPath -> list Node;
  order_qual_clauses : list RestrictInfo -> list RestrictInfo;
  extract_actual_clauses : list RestrictInfo -> bool -> list Node;
  replace_nestloop_params : list Node -> list Node
}.

Section PlanConstruction.

Context `{Postgres} `{Codegen} `{CreatePlan}.

(** [rel] is [best_path->path.parent]; [context] is the local of that
    name, which [gpuscan_create_plan] does not initialise. *)
Definition gpuscan_create_plan (rel : RelOptInfo) (gpath : GpuScanPath)
    (context : codegen_context) : Result GpuScanPlan :=
  let tlist :=
    if use_physical_tlist rel then
      match build_physical_tlist rel with
      | [] => build_path_tlist gpath
      | tlist => tlist
      end
    else build_path_tlist gpath in
  (* Sort clauses into best execution order *)
  let host_clauses := order_qual_clauses (host_quals gpath) in
  let dev_clauses := order_qual_clauses (dev_quals gpath) in
  (* Reduce RestrictInfo list to bare expressions; ignore pseudoconstants *)
  let host_clauses := extract_actual_clauses host_clauses false in
  let dev_clauses := extract_actual_clauses dev_clauses false in
  (* Replace any outer-relation variables with nestloop params *)
  let '(host_clauses, dev_clauses) :=
    match param_info gpath with
    | Some _ => (replace_nestloop_params host_clauses,
                 replace_nestloop_params dev_clauses)
    | None => (host_clauses, dev_clauses)
    end in
  (* Construct OpenCL kernel code *)
  '(kern_source, context) ← gpuscan_codegen_quals (dev_quals gpath) context;
  (* Construction of GpuScanPlan node; on top of CustomPlan node *)
  OK (mkGpuScanPlan tlist host_clauses (relid rel) kern_source
        (extra_flags context) (used_params context) (used_vars context)
        dev_clauses (dev_attrs gpath) (host_attrs gpath)).

End PlanConstruction.

(** ** Text output of a plan node *)

(** [appendStringInfoChar(str, ch)] and [appendStringInfoString(str, s)] *)
Definition appendStringInfoChar (str : string) (ch : ascii) : string :=
  str +:+ String ch "".
Definition appendStringInfoString (str s : string) : string := str +:+ s.

Definition backslash : ascii := ascii_of_nat 92.
Definition double_quote : ascii := ascii_of_nat 34.

(** The characters that end a token for [read.c]: white space,
    parentheses and braces. *)
Definition is_delimiter (c : ascii) : bool :=
  (c =? " ")%char || (c =? ascii_of_nat 10)%char
  || (c =? ascii_of_nat 9)%char
  || (c =? "(")%char || (c =? ")")%char
  || (c =? "{")%char || (c =? "}")%char.

(** These chars must be backslashed anywhere in the string. *)
Definition backslashed_anywhere (c : ascii) : bool :=
  is_delimiter c || (c =? backslash)%char.

(** These characters only need to be quoted at the start of the string;
    [s1] is [s[1]], the terminating NUL of a string of one character. *)
Definition backslashed_at_start (s : string) : bool :=
  match s with
  | "" => false
  | String c rest =>
      let s1 := match rest with
                | String c1 _ => c1
                | "" => zero
                end in
      (c =? "<")%char || (c =? double_quote)%char || is_digit c
      || (((c =? "+")%char || (c =? "-")%char)
          && (is_digit s1 || (s1 =? ".")%char))
  end.

(** The loop of [_outToken] over the characters of [s]. *)
Fixpoint outToken_loop (s : string) (str : string) : string :=
  match s with
  | "" => str
  | String c s' =>
      let str := if backslashed_anywhere c
                 then appendStringInfoChar str backslash else str in
      outToken_loop s' (appendStringInfoChar str c)
  end.

(** [s] is [None] for NULL; a string is the characters before its
    terminating NUL. *)
Definition _outToken (str : string) (s : option string) : string :=
  match s with
  | None | Some "" => appendStringInfoString str "<>"
  | Some s =>
      let str := if backslashed_at_start s
                 then appendStringInfoChar str backslash else str in
      outToken_loop s str
  end.

(** PostgreSQL's [bms_first_member]: the smallest member of the set, which
    is taken out of it, or -1 of an empty set. *)
Definition bms_first_member (a : Bitmapset) : Z * Bitmapset :=
  match merge_sort Z.le (elements a) with
  | [] => (-1, a)
  | x :: _ => (x, a ∖ {[ x ]})
  end.

(** The loop of [_outBitmapset], [while ((x = bms_first_member(tmpset))
    >= 0)]: every turn takes a member out of [tmpset]; [fuel] bounds the
    number of turns. *)
Fixpoint outBitmapset_loop (fuel : nat) (tmpset : Bitmapset) (str : string)
    : string :=
  match fuel with
  | O => str
  | S fuel =>
      let '(x, tmpset) := bms_first_member tmpset in
      if (0 <=? x)%Z
      then outBitmapset_loop fuel tmpset (str +:+ " " +:+ fmt_d x)
      else str
  end.

Definition _outBitmapset (str : string) (bms : Bitmapset) : string :=
  let str := appendStringInfoChar str "(" in
  let str := appendStringInfoChar str "b" in
  let tmpset := bms in                                   (* bms_copy *)
  let str := outBitmapset_loop (S (size tmpset)) tmpset str in
  appendStringInfoChar str ")".

Section TextOutput.

Context `{Postgres}.

(** The first two appends are written as calls of [appendStringInfoChar]
    with a format; they are read as the [appendStringInfo] of the lines
    after them. *)
Definition gpuscan_textout_plan (str : string) (plannode : GpuScanPlan)
    : string :=
  let str := str +:+ " :scanrelid " +:+ fmt_u (scanrelid plannode) in
  let str := str +:+ " :kern_source " in
  let str := _outToken str (kern_source plannode) in
  let str := str +:+ " :extra_flags " +:+ fmt_u (scanrelid plannode) in
  let temp := nodeToString (T_List (plan_used_params plannode)) in
  let str := str +:+ " :used_params " +:+ temp in
  let temp := nodeToString (T_List (map T_Var (plan_used_vars plannode))) in
  let str := str +:+ " :used_vars " +:+ temp in
  let temp := nodeToString (T_List (dev_clauses plannode)) in
  let str := str +:+ " :dev_clauses " +:+ temp in
  let str := str +:+ " :dev_attrs " in
  let str := _outBitmapset str (plan_dev_attrs plannode) in
  let str := str +:+ " :host_attrs " in
  _outBitmapset str (plan_host_attrs plannode).

End TextOutput.

(** *** The reader's side

    For the reader of a node text a backslash protects the character
    after it, and a token ends at the first delimiter that is not
    protected. *)

(** A token without its protecting backslashes. *)
Fixpoint unprotect (s : string) : string :=
  match s with
  | "" => ""
  | String c s' =>
      if (c =? backslash)%char then
        match s' with
        | String c' s'' => String c' (unprotect s'')
        | "" => ""
        end
      else String c (unprotect s')
  end.

(** Whether a text is one token: it has no delimiter that is not
    protected, and no backslash at its end. *)
Fixpoint one_token (s : string) : bool :=
  match s with
  | "" => true
  | String c s' =>
      if (c =? backslash)%char then
        match s' with
        | String _ s'' => one_token s''
        | "" => false
        end
      else negb (is_delimiter c) && one_token s'
  end.

(** The members of a set in ascending order. *)
Definition bms_members (a : Bitmapset) : list Z :=
  merge_sort Z.le (elements a).

(** What [_outBitmapset] prints after "(b" for a set of these members. *)
Definition members_text (members : list Z) : string :=
  String.concat "" (map (fun x => " " +:+ fmt_d x) members) +:+ ")".

(** Whether a text starts with a character that is no digit. *)
Definition starts_with_nondigit (s : string) : bool :=
  match s with
  | "" => false
  | String c _ => negb (is_digit c)
  end.

(** ** The name of the shared memory context *)

Section ScanName.

Context `{Backend}.

(** What [gpuscan_begin] prints into [namebuf], before and after
    [snprintf] cuts it to the size of the buffer: the name it creates the
    shared memory context of the scan under. *)
Definition gpuscan_namebuf_text (scanrelid : Index) : string :=
  "gpuscan(pid:" +:+ fmt_u MyProcPid +:+
  ", datoid:" +:+ fmt_u MyDatabaseId +:+
  ", reloid:" +:+ fmt_u (RelationGetRelid scanrelid) +:+
  ", rtindex:" +:+ fmt_u scanrelid.

Definition gpuscan_namebuf (scanrelid : Index) : string :=
  snprintf (NAMEDATALEN + 1) (gpuscan_namebuf_text scanrelid).

End ScanName.

(** ** More sample collaborators *)

(** A plan constructor to run [gpuscan_create_plan] with: the physical
    target list of the relation, the clauses in the order given,
    [extract_actual_clauses] as in [restrictinfo.c], and no outer
    relation. *)
Definition sample_createplan : CreatePlan := {|
  use_physical_tlist := fun rel => true;
  build_physical_tlist := fun rel => reltargetlist rel;
  build_path_tlist := fun gpath => [];
  order_qual_clauses := fun clauses => clauses;
  extract_actual_clauses := fun clauses pseudo =>
    map clause
        (filter (fun rinfo => pseudoconstant rinfo = pseudo) clauses);
  replace_nestloop_params := fun clauses => clauses
|}.

(** The sample relation with the one clause "colB LIKE '%x%'", which has
    no device counterpart. *)
Definition sample_rel_text : RelOptInfo :=
  mkRelOptInfo 1 RTE_RELATION 0 500 10 1000
    [T_Var colA; T_Var colB] [colB_like_x].

(** "colA > 7": the clause [colA_gt_5] with another constant. *)
Definition colA_gt_7 : RestrictInfo :=
  mkRestrictInfo
    (T_OpExpr 521 BOOLOID [T_Var colA; T_Const (mkConst INT4OID 7 false)])
    false.

(** A code generator that breaks the convention of the used parameters:
    it hands back a context that lists a [Var] among them. *)
Definition var_as_param_codegen : Codegen := {|
  pgstrom_codegen_available_expression := sample_codegen_available_expression;
  pgstrom_codegen_expression := fun dev_quals ctx =>
    OK ("KPARAM_1",
        mkContext [T_Const (mkConst INT4OID 5 false); T_Var colA] [] 0);
  pgstrom_devtype_lookup := sample_devtype_lookup;
  DEVTYPE_IS_VARLENA := sample_DEVTYPE_IS_VARLENA
|}.

(** ** Properties *)

Section PlanningFacts.

Context `{Postgres} `{Codegen}.

Lemma classify_snoc quals rinfo :
  classify_quals (quals ++ [rinfo])%list
  = classify_qual (classify_quals quals) rinfo.
Proof. unfold classify_quals. by rewrite fold_left_app. Qed.

(** The loop, in closed form: each group is the input filtered by the
    capability test, each attribute set is [pull_varattnos] run over
    the clauses of its group. *)
Lemma classify_closed_form quals :
  classify_quals quals =
    mkQualGroups
      (filter (fun r => pgstrom_codegen_available_expression (clause r))
              quals)
      (filter (fun r => ¬ pgstrom_codegen_available_expression (clause r))
              quals)
      (pull_clauses
         (filter (fun r => pgstrom_codegen_available_expression (clause r))
                 quals) ∅)
      (pull_clauses
         (filter (fun r => ¬ pgstrom_codegen_available_expression (clause r))
                 quals) ∅).
Proof.
  induction quals as [|rinfo quals IH] using rev_ind; [done|].
  rewrite classify_snoc, IH, !filter_app.
  unfold classify_qual, lappend, pull_clauses.
  cbn [g_dev_quals g_host_quals g_dev_attrs g_host_attrs].
  rewrite !filter_cons, !filter_nil, !fold_left_app.
  destruct (pgstrom_codegen_available_expression (clause rinfo));
    repeat case_decide; cbn in *; rewrite ?app_nil_r; first [done | tauto].
Qed.

(** C1: the classifier places each conjunct of the input in exactly one
    of the device group and the host group -- the two groups together
    are the input as a multiset -- and each group lists its conjuncts in
    the order of the input. *)
Theorem gpuscan_add_scan_path_partitions enable_gpuscan baserel :
  exists pathnode,
    gpuscan_add_scan_path enable_gpuscan baserel = OK pathnode
    /\ (dev_quals pathnode ++ host_quals pathnode)%list
         ≡ₚ baserestrictinfo baserel
    /\ sublist (dev_quals pathnode) (baserestrictinfo baserel)
    /\ sublist (host_quals pathnode) (baserestrictinfo baserel)
    /\ (forall rinfo, rinfo ∈ baserestrictinfo baserel ->
          (rinfo ∈ dev_quals pathnode /\ rinfo ∉ host_quals pathnode)
          \/ (rinfo ∈ host_quals pathnode /\ rinfo ∉ dev_quals pathnode)).
Proof.
  eexists. split; [reflexivity|]. cbn [dev_quals host_quals].
  rewrite classify_closed_form. cbn [g_dev_quals g_host_quals].
  split_and!.
  - apply filter_app_complement.
  - apply sublist_filter.
  - apply sublist_filter.
  - intros rinfo Hin. rewrite !list_elem_of_filter.
    destruct (pgstrom_codegen_available_expression (clause rinfo));
      cbn; tauto.
Qed.

(** C2: a conjunct that passes the capability test is appended to the
    device group and its columns are pulled into [dev_attrs]; any other
    conjunct is appended to the host group and its columns are pulled
    into [host_attrs]; the classification returns, it never raises. *)
Theorem gpuscan_add_scan_path_routes enable_gpuscan baserel :
  exists pathnode,
    gpuscan_add_scan_path enable_gpuscan baserel = OK pathnode
    /\ (forall before rinfo rest,
          baserestrictinfo baserel = (before ++ rinfo :: rest)%list ->
          let g := classify_quals before in
          classify_quals (before ++ [rinfo])%list =
            if pgstrom_codegen_available_expression (clause rinfo) then
              mkQualGroups (g_dev_quals g ++ [rinfo])%list (g_host_quals g)
                (pull_varattnos (clause rinfo) (g_dev_attrs g))
                (g_host_attrs g)
            else
              mkQualGroups (g_dev_quals g) (g_host_quals g ++ [rinfo])%list
                (g_dev_attrs g)
                (pull_varattnos (clause rinfo) (g_host_attrs g)))
    /\ dev_quals pathnode
       = filter (fun r => pgstrom_codegen_available_expression (clause r))
                (baserestrictinfo baserel)
    /\ host_quals pathnode
       = filter (fun r => ¬ pgstrom_codegen_available_expression (clause r))
                (baserestrictinfo baserel)
    /\ dev_attrs pathnode = pull_clauses (dev_quals pathnode) ∅
    /\ host_attrs pathnode
       = pull_varattnos (T_List (reltargetlist baserel))
           (pull_clauses (host_quals pathnode) ∅).
Proof.
  eexists. split; [reflexivity|].
  cbn [dev_quals host_quals dev_attrs host_attrs].
  split_and!.
  - intros before rinfo rest _. cbn zeta. rewrite classify_snoc.
    unfold classify_qual, lappend.
    by destruct (pgstrom_codegen_available_expression (clause rinfo)).
  - by rewrite classify_closed_form.
  - by rewrite classify_closed_form.
  - by rewrite classify_closed_form.
  - by rewrite classify_closed_form.
Qed.

End PlanningFacts.

Section CostFacts.

Context `{Postgres}.

Lemma scale_le (k t t' : Q) : (0 <= k -> t <= t' -> k * t <= k * t')%Q.
Proof. intros Hk Ht. nra. Qed.


End CostFacts.

(** ** Strings *)

Lemma append_nil_l (a : string) : "" +:+ a = a.
Proof. reflexivity. Qed.

Lemma append_cons (ch : ascii) (a b : string) :
  String ch a +:+ b = String ch (a +:+ b).
Proof. reflexivity. Qed.

Lemma append_assoc (a b c : string) : (a +:+ b) +:+ c = a +:+ b +:+ c.
Proof.
  induction a as [|ch a IH]; [done|]. by rewrite !append_cons, IH.
Qed.

Lemma append_nil_r (a : string) : a +:+ "" = a.
Proof. induction a as [|ch a IH]; [done|]. by rewrite append_cons, IH. Qed.

Lemma concat_cons (l : string) (ls : list string) :
  String.concat "" (l :: ls) = l +:+ String.concat "" ls.
Proof. destruct ls; [apply eq_sym, append_nil_r | reflexivity]. Qed.

(** ** Words and symbols of a concatenation *)

Lemma words_from_ident_run (a : string) :
  all_ident a = true ->
  forall word s, words_from word (a +:+ s) = words_from (word +:+ a) s.
Proof.
  induction a as [|c a IH]; intros Hid word s.
  - by rewrite append_nil_l, append_nil_r.
  - cbn [all_ident] in Hid. apply andb_prop in Hid as [Hc Ha].
    rewrite append_cons. cbn [words_from]. rewrite Hc, (IH Ha).
    by rewrite append_assoc.
Qed.

Lemma words_from_sep (a : string) (c : ascii) (s : string) :
  is_ident_char c = false ->
  forall word,
    words_from word (a +:+ String c s) = (words_from word a ++ words s)%list.
Proof.
  intros Hc. induction a as [|d a IH]; intros word.
  - rewrite append_nil_l. cbn [words_from]. by rewrite Hc.
  - rewrite append_cons. cbn [words_from].
    destruct (is_ident_char d); rewrite IH; [done|].
    by rewrite app_assoc.
Qed.

Lemma symbols_app_sep (a : string) (c : ascii) (s : string) :
  is_ident_char c = false ->
  symbols (a +:+ String c s) = (symbols a ++ symbols s)%list.
Proof.
  intros Hc. unfold symbols, words.
  by rewrite (words_from_sep _ _ _ Hc), List.filter_app.
Qed.

Lemma symbols_sep (c : ascii) (s : string) :
  is_ident_char c = false -> symbols (String c s) = symbols s.
Proof. intros Hc. apply (symbols_app_sep "" c s Hc). Qed.

Lemma symbols_app_starts (a b : string) :
  starts_with_sep b = true ->
  symbols (a +:+ b) = (symbols a ++ symbols b)%list.
Proof.
  destruct b as [|c b]; cbn [starts_with_sep]; intros Hb.
  - by rewrite append_nil_r, app_nil_r.
  - apply negb_true_iff in Hb. by rewrite symbols_app_sep, symbols_sep.
Qed.

Lemma words_from_ends (a : string) :
  ends_with_sep a = true -> a <> "" ->
  forall word b,
    words_from word (a +:+ b) = (words_from word a ++ words b)%list.
Proof.
  induction a as [|c a IH]; [done|]. intros Hends _ word b.
  destruct a as [|d a].
  - cbn [ends_with_sep] in Hends. apply negb_true_iff in Hends.
    rewrite append_cons, append_nil_l. cbn [words_from].
    rewrite Hends. cbn [flush]. by rewrite app_nil_r.
  - change (ends_with_sep (String c (String d a)))
      with (ends_with_sep (String d a)) in Hends.
    rewrite append_cons. cbn [words_from].
    destruct (is_ident_char c); rewrite (IH Hends) by done; [done|].
    by rewrite app_assoc.
Qed.

Lemma symbols_app_ends (a b : string) :
  ends_with_sep a = true ->
  symbols (a +:+ b) = (symbols a ++ symbols b)%list.
Proof.
  intros Hends. destruct (decide (a = "")) as [->|Hne]; [done|].
  unfold symbols, words.
  by rewrite (words_from_ends _ Hends Hne), List.filter_app.
Qed.

Lemma symbols_ident (w : string) :
  all_ident w = true -> symbols w = List.filter is_symbol (flush w).
Proof.
  intros Hw. unfold symbols, words.
  rewrite <- (append_nil_r w) at 1.
  by rewrite (words_from_ident_run _ Hw), append_nil_l.
Qed.

Lemma all_ident_app (a b : string) :
  all_ident a = true -> all_ident b = true -> all_ident (a +:+ b) = true.
Proof.
  intros Ha Hb. induction a as [|c a IH]; [done|].
  cbn [all_ident] in Ha. apply andb_prop in Ha as [Hc Ha].
  rewrite append_cons. cbn [all_ident]. by rewrite Hc, IH.
Qed.

Lemma all_digits_ident (w : string) :
  all_digits w = true -> all_ident w = true.
Proof.
  induction w as [|c w IH]; [done|]. cbn [all_digits all_ident].
  intros [Hc Hw]%andb_prop. unfold is_ident_char. by rewrite Hc, IH.
Qed.

Lemma symbols_digits (w : string) : all_digits w = true -> symbols w = [].
Proof.
  intros Hw. rewrite symbols_ident by by apply all_digits_ident.
  destruct w as [|c w]; [done|]. cbn [all_digits] in Hw.
  apply andb_prop in Hw as [Hc _]. cbn. by rewrite Hc.
Qed.

(** ** Decimal numbers *)

Lemma pretty_N_char_digit (x : N) : is_digit (pretty_N_char x) = true.
Proof. unfold pretty_N_char. by repeat case_match. Qed.

Lemma pretty_N_go_digits (x : N) :
  forall s, all_digits s = true -> all_digits (pretty_N_go x s) = true.
Proof.
  induction (N.lt_wf_0 x) as [x _ IH]. intros s Hs.
  destruct (decide (x = 0)%N) as [->|Hx]; [done|].
  rewrite pretty_N_go_step by lia.
  apply IH; [apply N.div_lt; lia|].
  cbn [all_digits]. by rewrite pretty_N_char_digit, Hs.
Qed.

Lemma pretty_N_digits (x : N) : all_digits (pretty x) = true.
Proof.
  unfold pretty, pretty_N. case_decide; [done|].
  by apply pretty_N_go_digits.
Qed.

Lemma fmt_u_digits (x : Z) : all_digits (fmt_u x) = true.
Proof. apply pretty_N_digits. Qed.

(** [%u] prints a number that fits 32 bits in decimal; a negative
    [AttrNumber] (a system column) comes out as a large unsigned number. *)
Lemma fmt_u_decimal (x : Z) :
  0 <= x < 2 ^ 32 -> fmt_u x = pretty (Z.to_N x).
Proof. intros Hx. unfold fmt_u. by rewrite Z.mod_small. Qed.

Lemma fmt_d_digits (i : nat) : all_digits (fmt_d (Z.of_nat i)) = true.
Proof.
  unfold fmt_d, pretty, pretty_Z.
  destruct (Z.of_nat i) eqn:Hi; [done| |lia].
  apply pretty_N_digits.
Qed.

(** ** Symbols of the pieces of a generated source *)

Lemma kparam_name_ident i : all_ident (kparam_name i) = true.
Proof.
  apply all_ident_app; [done|]. apply all_digits_ident, fmt_u_digits.
Qed.

Lemma kvar_name_ident i : all_ident (kvar_name i) = true.
Proof.
  apply all_ident_app; [done|]. apply all_digits_ident, fmt_u_digits.
Qed.

Lemma symbols_kparam_name i : symbols (kparam_name i) = [kparam_name i].
Proof. by rewrite symbols_ident by apply kparam_name_ident. Qed.

Lemma symbols_kvar_name i : symbols (kvar_name i) = [kvar_name i].
Proof. by rewrite symbols_ident by apply kvar_name_ident. Qed.

Lemma symbols_accessor (ident suffix : string) :
  all_ident ident = true -> all_ident suffix = true ->
  symbols ("pg_" +:+ ident +:+ suffix) = ["pg_" +:+ ident +:+ suffix].
Proof.
  intros Hi Hs. rewrite symbols_ident; [done|].
  apply (all_ident_app "pg_"); [done|]. by apply all_ident_app.
Qed.

Lemma symbols_kparam_macro i ident rest :
  all_ident ident = true ->
  symbols (kparam_macro i ident +:+ rest)
  = "define" :: kparam_name i :: ("pg_" +:+ ident +:+ "_param")
      :: "kparams" :: symbols rest.
Proof.
  intros Hid.
  replace (kparam_macro i ident +:+ rest)
    with ("#define" +:+ String " "
            (kparam_name i +:+ String (ascii_of_nat 9)
               (("pg_" +:+ ident +:+ "_param") +:+ String "("
                  ("kparams" +:+ String ","
                     (fmt_d (Z.of_nat i) +:+ String ")"
                        ("" +:+ String (ascii_of_nat 10) rest))))))
    by (unfold kparam_macro; rewrite !append_assoc; reflexivity).
  rewrite !symbols_app_sep by done.
  rewrite symbols_kparam_name, symbols_accessor by done.
  rewrite (symbols_digits (fmt_d _)) by apply fmt_d_digits.
  reflexivity.
Qed.

Lemma symbols_kvar_macro i ident varlena rest :
  all_ident ident = true ->
  symbols (kvar_macro i ident varlena +:+ rest)
  = ("define" :: kvar_name i :: ("pg_" +:+ ident +:+ "_vref") :: "kcs"
       :: (if varlena then ["toast"] else [])
       ++ "get_global_id" :: symbols rest)%list.
Proof.
  intros Hid. destruct varlena.
  - replace (kvar_macro i ident true +:+ rest)
      with ("#define" +:+ String " "
              (kvar_name i +:+ String (ascii_of_nat 9)
                 (("pg_" +:+ ident +:+ "_vref") +:+ String "("
                    ("kcs,toast" +:+ String ","
                       (fmt_u (Z.of_nat i) +:+ String ","
                          ("get_global_id(0)" +:+ String ")"
                             ("" +:+ String (ascii_of_nat 10) rest)))))))
      by (unfold kvar_macro; rewrite !append_assoc; reflexivity).
    rewrite !symbols_app_sep by done.
    rewrite symbols_kvar_name, symbols_accessor by done.
    rewrite (symbols_digits (fmt_u _)) by apply fmt_u_digits.
    reflexivity.
  - replace (kvar_macro i ident false +:+ rest)
      with ("#define" +:+ String " "
              (kvar_name i +:+ String (ascii_of_nat 9)
                 (("pg_" +:+ ident +:+ "_vref") +:+ String "("
                    ("kcs" +:+ String ","
                       (fmt_u (Z.of_nat i) +:+ String ","
                          ("get_global_id(0)" +:+ String ")"
                             ("" +:+ String (ascii_of_nat 10) rest)))))))
      by (unfold kvar_macro; rewrite !append_assoc; reflexivity).
    rewrite !symbols_app_sep by done.
    rewrite symbols_kvar_name, symbols_accessor by done.
    rewrite (symbols_digits (fmt_u _)) by apply fmt_u_digits.
    reflexivity.
Qed.

Lemma symbols_join_numbers (nums : list string) rest :
  Forall (fun n => all_digits n = true) nums ->
  symbols (join ", " nums +:+ String "}" rest) = symbols rest.
Proof.
  induction 1 as [|n nums Hn Hnums IH].
  - by rewrite append_nil_l, symbols_sep.
  - destruct nums as [|m nums].
    + change (join ", " [n]) with n.
      by rewrite symbols_app_sep, symbols_digits.
    + change (join ", " (n :: m :: nums))
        with (n +:+ String "," (String " " (join ", " (m :: nums)))).
      rewrite append_assoc, !append_cons.
      rewrite symbols_app_sep, symbols_digits, symbols_sep by done.
      apply IH.
Qed.

Lemma symbols_used_vars_array vars rest :
  symbols (used_vars_array vars +:+ rest)
  = "static" :: "__constant" :: "cl_ushort" :: "pg_used_vars"
      :: symbols rest.
Proof.
  replace (used_vars_array vars +:+ rest)
    with ("static __constant cl_ushort pg_used_vars[]=" +:+ String "{"
            (join ", " (map (fun var => fmt_u (varattno var)) vars)
             +:+ String "}" (String ";" rest)))
    by (unfold used_vars_array; rewrite !append_assoc; reflexivity).
  rewrite symbols_app_sep by done. rewrite symbols_join_numbers.
  - by rewrite (symbols_sep ";") by done.
  - apply Forall_forall. intros n (var & -> & _)%list_elem_of_fmap.
    apply fmt_u_digits.
Qed.

(** The symbols of the three kernel functions around the qualifier
    expression. *)
Lemma symbols_kernels expr_code :
  symbols (qual_cs_head +:+ expr_code +:+ qual_cs_tail +:+
           qual_rs_prep_text +:+ qual_rs_text)
  = (symbols qual_cs_head ++ symbols expr_code
     ++ symbols (qual_cs_tail +:+ qual_rs_prep_text +:+ qual_rs_text))%list.
Proof.
  rewrite symbols_app_ends by done.
  by rewrite symbols_app_starts by done.
Qed.

Section GenerationFacts.

Context `{Postgres} `{Codegen}.

Lemma kparam_define_macro (i : nat) dtype :
  kparam_define (Z.of_nat i) dtype = kparam_macro i (type_ident dtype).
Proof. reflexivity. Qed.

Lemma kvar_define_macro (i : nat) dtype :
  kvar_define (Z.of_nat i) dtype
  = kvar_macro i (type_ident dtype) (is_varlena dtype).
Proof.
  unfold kvar_define, kvar_macro. by destruct (is_varlena dtype).
Qed.

(** The first loop appends one line per used parameter, with a running
    index. *)
Lemma put_param_defs_lines cells :
  Forall param_has_devtype cells ->
  forall (first : nat) str,
    put_param_defs cells (Z.of_nat first) str
    = OK (str +:+ String.concat "" (param_lines cells first)).
Proof.
  induction 1 as [|node cells (oid & Hty & dtype & Hdt) _ IH];
    intros first str.
  - cbn. by rewrite append_nil_r.
  - cbn [param_lines]. rewrite Hty. cbn [mbind option_bind].
    rewrite Hdt, concat_cons, <- append_assoc, <- kparam_define_macro.
    rewrite <- IH. replace (Z.of_nat (S first)) with (Z.of_nat first + 1)
      by lia.
    destruct node; try discriminate; cbn in Hty; simplify_eq; cbn;
      unfold devtype_of; by rewrite Hdt.
Qed.

Lemma param_lines_lookup cells :
  Forall param_has_devtype cells ->
  forall first k node, cells !! k = Some node ->
    exists oid dtype,
      param_type node = Some oid
      /\ pgstrom_devtype_lookup oid = Some dtype
      /\ param_lines cells first !! k
         = Some (kparam_macro (first + k) (type_ident dtype)).
Proof.
  induction 1 as [|node cells (oid & Hty & dtype & Hdt) _ IH];
    intros first [|k] node' Hk; try done; cbn in Hk.
  - simplify_eq. exists oid, dtype. split_and!; try done.
    cbn [param_lines]. rewrite Hty. cbn [mbind option_bind].
    by rewrite Hdt, Nat.add_0_r.
  - destruct (IH (S first) k node' Hk) as (oid' & dtype' & ? & ? & Hl).
    exists oid', dtype'. split_and!; try done.
    rewrite Nat.add_succ_r. exact Hl.
Qed.

Lemma length_param_lines cells first :
  length (param_lines cells first) = length cells.
Proof.
  revert first. induction cells as [|? ? IH]; intros first; [done|].
  cbn. by rewrite IH.
Qed.

Lemma put_var_defs_lines cells :
  Forall var_has_devtype cells ->
  forall (first : nat) str,
    put_var_defs cells (Z.of_nat first) str
    = OK (str +:+ String.concat "" (var_lines cells first)).
Proof.
  induction 1 as [|var cells (dtype & Hdt) _ IH]; intros first str.
  - cbn. by rewrite append_nil_r.
  - cbn [var_lines].
    rewrite Hdt, concat_cons, <- append_assoc, <- kvar_define_macro.
    rewrite <- IH. replace (Z.of_nat (S first)) with (Z.of_nat first + 1)
      by lia.
    cbn. unfold devtype_of. by rewrite Hdt.
Qed.

Lemma var_lines_lookup cells :
  Forall var_has_devtype cells ->
  forall first k var, cells !! k = Some var ->
    exists dtype,
      pgstrom_devtype_lookup (vartype var) = Some dtype
      /\ var_lines cells first !! k
         = Some (kvar_macro (first + k) (type_ident dtype)
                   (is_varlena dtype)).
Proof.
  induction 1 as [|var cells (dtype & Hdt) _ IH];
    intros first [|k] var' Hk; try done; cbn in Hk.
  - simplify_eq. exists dtype. split; [done|].
    cbn [var_lines]. by rewrite Hdt, Nat.add_0_r.
  - destruct (IH (S first) k var' Hk) as (dtype' & ? & Hl).
    exists dtype'. split; [done|].
    rewrite Nat.add_succ_r. exact Hl.
Qed.

Lemma length_var_lines cells first :
  length (var_lines cells first) = length cells.
Proof.
  revert first. induction cells as [|? ? IH]; intros first; [done|].
  cbn. by rewrite IH.
Qed.

Lemma put_used_vars_rest cells str :
  put_used_vars cells false str
  = str +:+ String.concat ""
              (map (fun var => ", " +:+ fmt_u (varattno var)) cells).
Proof.
  revert str. induction cells as [|var cells IH]; intros str.
  - by rewrite append_nil_r.
  - cbn [put_used_vars map]. by rewrite IH, concat_cons, !append_assoc.
Qed.

Lemma join_comma (x : string) (xs : list string) :
  join ", " (x :: xs)
  = x +:+ String.concat "" (map (fun y => ", " +:+ y) xs).
Proof.
  revert x. induction xs as [|y xs IH]; intros x.
  - by rewrite append_nil_r.
  - change (join ", " (x :: y :: xs))
      with (x +:+ ", " +:+ join ", " (y :: xs)).
    cbn [map]. by rewrite IH, concat_cons, !append_assoc.
Qed.

(** The third loop prints the column numbers of the used variables,
    separated by commas. *)
Lemma put_used_vars_join cells str :
  put_used_vars cells true str
  = str +:+ join ", " (map (fun var => fmt_u (varattno var)) cells).
Proof.
  destruct cells as [|var cells]; [by rewrite append_nil_r|].
  cbn [put_used_vars map].
  rewrite put_used_vars_rest, join_comma, map_map, !append_assoc.
  reflexivity.
Qed.

(** The source of a non-empty device group, whole. *)
Lemma codegen_quals_source dev_quals context0 expr_code context :
  dev_quals <> [] ->
  pgstrom_codegen_expression dev_quals context_zero
    = OK (expr_code, context) ->
  Forall param_has_devtype (used_params context) ->
  Forall var_has_devtype (used_vars context) ->
  gpuscan_codegen_quals dev_quals context0
  = OK (Some (String.concat "" (param_lines (used_params context) 0) +:+
              String.concat "" (var_lines (used_vars context) 0) +:+
              nl +:+ used_vars_array (used_vars context) +:+
              nl +:+ nl +:+
              qual_cs_head +:+ expr_code +:+ qual_cs_tail +:+
              qual_rs_prep_text +:+
              qual_rs_text),
        context).
Proof.
  intros Hne Hexpr Hparams Hvars.
  unfold gpuscan_codegen_quals.
  destruct dev_quals as [|rinfo dev_quals]; [done|].
  pose proof (put_param_defs_lines _ Hparams 0 "") as Hp.
  pose proof (put_var_defs_lines _ Hvars 0) as Hv.
  change (Z.of_nat 0) with 0 in Hp, Hv.
  rewrite Hexpr. cbn [mbind Result_bind]. rewrite Hp.
  cbn [mbind Result_bind]. rewrite append_nil_l, Hv.
  cbn [mbind Result_bind]. rewrite put_used_vars_join.
  unfold used_vars_array. by rewrite !append_assoc.
Qed.



Lemma symbols_param_lines cells :
  Forall param_has_devtype cells ->
  (forall oid dtype, pgstrom_devtype_lookup oid = Some dtype ->
                     all_ident (type_ident dtype) = true) ->
  forall first rest s,
    In s (symbols (String.concat "" (param_lines cells first) +:+ rest)) ->
    (exists k, (first <= k < first + length cells)%nat
               /\ s = kparam_name k)
    \/ s = "define" \/ s = "kparams" \/ is_accessor s
    \/ In s (symbols rest).
Proof.
  intros Hcells Hidents.
  induction Hcells as [|node cells (oid & Hty & dtype & Hdt) _ IH];
    intros first rest s Hin.
  - rewrite append_nil_l in Hin. tauto.
  - cbn [param_lines] in Hin. rewrite Hty in Hin.
    cbn [mbind option_bind] in Hin.
    rewrite Hdt, concat_cons, append_assoc in Hin.
    rewrite symbols_kparam_macro in Hin by eauto.
    destruct Hin as [<-|[<-|[<-|[<-|Hin]]]]; [tauto| | |tauto|].
    + left. exists first. cbn [length]. split; [lia|done].
    + do 3 right. left. exists oid, dtype. tauto.
    + destruct (IH _ _ _ Hin) as [(k & Hk & ->)|?]; [|tauto].
      left. exists k. cbn [length]. split; [lia|done].
Qed.

Lemma symbols_var_lines cells :
  Forall var_has_devtype cells ->
  (forall oid dtype, pgstrom_devtype_lookup oid = Some dtype ->
                     all_ident (type_ident dtype) = true) ->
  forall first rest s,
    In s (symbols (String.concat "" (var_lines cells first) +:+ rest)) ->
    (exists k, (first <= k < first + length cells)%nat
               /\ s = kvar_name k)
    \/ In s ["define"; "kcs"; "toast"; "get_global_id"] \/ is_accessor s
    \/ In s (symbols rest).
Proof.
  intros Hcells Hidents.
  induction Hcells as [|var cells (dtype & Hdt) _ IH];
    intros first rest s Hin.
  - rewrite append_nil_l in Hin. tauto.
  - cbn [var_lines] in Hin.
    rewrite Hdt, concat_cons, append_assoc in Hin.
    rewrite symbols_kvar_macro in Hin by eauto.
    destruct Hin as [<-|[<-|[<-|[<-|Hin]]]];
      [cbn; tauto| | |cbn; tauto|].
    + left. exists first. cbn [length]. split; [lia|done].
    + do 2 right. left. exists (vartype var), dtype. tauto.
    + apply in_app_or in Hin as [Hin|[<-|Hin]].
      * destruct (is_varlena dtype); cbn in Hin |- *; tauto.
      * cbn; tauto.
      * destruct (IH _ _ _ Hin) as [(k & Hk & ->)|?]; [|tauto].
        left. exists k. cbn [length]. split; [lia|done].
Qed.

(** Every symbol of the three kernel functions, the qualifier
    expression aside, is a local, a kernel name, an argument, a word of
    the dialect or a name of the device runtime -- or [used_vars]. *)
Lemma kernel_symbols_accounted s :
  In s (symbols qual_cs_head
        ++ symbols (qual_cs_tail +:+ qual_rs_prep_text +:+ qual_rs_text))
    %list ->
  s = "used_vars"
  \/ In s [ "gpuscan_qual_cs"; "gpuscan_qual_rs_prep"; "gpuscan_qual_rs";
            "rc"; "errcode" ]
  \/ In s entry_point_arguments \/ In s opencl_words
  \/ In s device_runtime_symbols.
Proof.
  intros Hin.
  assert (forallb
            (fun s =>
               existsb (String.eqb s)
                 ("used_vars"
                  :: [ "gpuscan_qual_cs"; "gpuscan_qual_rs_prep";
                       "gpuscan_qual_rs"; "rc"; "errcode" ]
                  ++ entry_point_arguments ++ opencl_words
                  ++ device_runtime_symbols))
            (symbols qual_cs_head
             ++ symbols (qual_cs_tail +:+ qual_rs_prep_text
                         +:+ qual_rs_text)) = true) as Hall
    by (vm_compute; reflexivity).
  rewrite forallb_forall in Hall. specialize (Hall s Hin).
  apply existsb_exists in Hall as (s' & Hs' & ->%String.eqb_eq).
  destruct Hs' as [<-|Hs']; [tauto|].
  repeat (apply in_app_or in Hs' as [Hs'|Hs']); tauto.
Qed.

(** C4, as the source is generated: every symbol of the generated text
    is declared in the text, or is an argument of one of the three
    kernel functions, or is a word of the OpenCL dialect, a name of the
    PG-Strom device runtime, the accessor of a device type, or a symbol
    of the qualifier expression.  ([used_vars], which the row-store
    kernels pass while the array is declared as [pg_used_vars], is left
    aside.) *)
Theorem gpuscan_codegen_quals_symbols
    dev_quals context0 expr_code context :
  dev_quals <> [] ->
  pgstrom_codegen_expression dev_quals context_zero
    = OK (expr_code, context) ->
  Forall param_has_devtype (used_params context) ->
  Forall var_has_devtype (used_vars context) ->
  (forall oid dtype, pgstrom_devtype_lookup oid = Some dtype ->
                     all_ident (type_ident dtype) = true) ->
  exists src,
    gpuscan_codegen_quals dev_quals context0 = OK (Some src, context)
    /\ forall s, In s (symbols src) -> s <> "used_vars" ->
         In s (declared_symbols context)
         \/ In s entry_point_arguments
         \/ In s opencl_words
         \/ In s device_runtime_symbols
         \/ is_accessor s
         \/ In s (symbols expr_code).
Proof.
  intros Hne Hexpr Hparams Hvars Hidents.
  eexists. split; [by apply codegen_quals_source|].
  intros s Hin Hs. unfold declared_symbols.
  apply (symbols_param_lines _ Hparams Hidents) in Hin
    as [(k & Hk & ->)|[->|[->|[Hacc|Hin]]]].
  { left. apply in_or_app. left. apply in_map, in_seq. lia. }
  { cbn; tauto. }
  { cbn; tauto. }
  { tauto. }
  apply (symbols_var_lines _ Hvars Hidents) in Hin
    as [(k & Hk & ->)|[Hin|[Hacc|Hin]]].
  { left. apply in_or_app. right. apply in_or_app. left.
    apply in_map, in_seq. lia. }
  { cbn in Hin |- *. intuition (subst; tauto). }
  { tauto. }
  unfold nl in Hin. rewrite !append_cons, !append_nil_l in Hin.
  rewrite symbols_sep in Hin by done.
  rewrite symbols_used_vars_array in Hin.
  destruct Hin as [<-|[<-|[<-|[<-|Hin]]]].
  { do 2 right; left; cbn; tauto. }
  { do 2 right; left; cbn; tauto. }
  { do 3 right; left; cbn; tauto. }
  { left. do 2 (apply in_or_app; right). cbn; tauto. }
  rewrite (symbols_sep (ascii_of_nat 10)) in Hin by done.
  rewrite (symbols_sep (ascii_of_nat 10)) in Hin by done.
  rewrite symbols_kernels in Hin.
  assert (In s (symbols expr_code)
          \/ In s (symbols qual_cs_head
                   ++ symbols (qual_cs_tail +:+ qual_rs_prep_text
                               +:+ qual_rs_text))%list) as [Hx|Hk].
  { apply in_app_or in Hin as [Hin|Hin];
      [right; apply in_or_app; by left|].
    apply in_app_or in Hin as [Hin|Hin]; [by left|].
    right; apply in_or_app; by right. }
  { by do 5 right. }
  clear Hin.
  apply kernel_symbols_accounted in Hk as [Hu|[Hd|[Ha|[Ho|Hr]]]].
  - by destruct Hs.
  - left. do 2 (apply in_or_app; right). right. exact Hd.
  - right. left. exact Ha.
  - do 2 right. left. exact Ho.
  - do 3 right. left. exact Hr.
Qed.

End GenerationFacts.

(** ** The generated source is not self-contained *)

(** C4, as claimed, fails: the source generated for the one clause
    "colA > 5" calls [kern_set_error], which the text neither declares
    nor takes as an argument. *)
Lemma generated_source_not_self_contained :
  exists src context,
    @gpuscan_codegen_quals sample_postgres sample_codegen
       [colA_gt_5] context_zero = OK (Some src, context)
    /\ In "kern_set_error" (symbols src)
    /\ ~ self_contained context src.
Proof.
  eexists _, _. split; [vm_compute; reflexivity|].
  match goal with |- ?A /\ _ => assert A as Hin end.
  { vm_compute. repeat first [left; reflexivity | right]. }
  split; [exact Hin|].
  intros Hself. specialize (Hself _ Hin).
  vm_compute in Hself. intuition discriminate.
Qed.

(** ** The scan state *)

Section ExecutionFacts.

Context `{Backend}.

(** No plan method that returns changes the node or the world. *)
Lemma gpuscan_plan_methods_ok m node w node' w' :
  gpuscan_plan_methods m node w = (OK node', w') -> node' = node /\ w' = w.
Proof. destruct m; cbn; intros [= <- <-]; done. Qed.

Lemma run_methods_ok ms :
  forall node w node' w',
    run_methods ms node w = (OK node', w') -> node' = node /\ w' = w.
Proof.
  induction ms as [|m ms IH]; intros node w node' w'; cbn [run_methods].
  - by intros [= <- <-].
  - destruct (gpuscan_plan_methods m node w) as [[node1|e] w1] eqn:Hm;
      [|done].
    apply gpuscan_plan_methods_ok in Hm as [-> ->]. apply IH.
Qed.

Lemma gpuscan_begin_ok gsplan w node w' :
  gpuscan_begin gsplan w = (OK node, w') ->
  scan_mode node = GpuScanMode_HeapOnlyScan.
Proof.
  unfold gpuscan_begin, pgstrom_shmem_context_create, pgstrom_create_queue,
    pgstrom_create_parambuf, acquire.
  repeat (case_match; simplify_eq/=; try done).
  all: intros [= <- _]; done.
Qed.


(** X19: when the shared memory context or the message queue cannot be
    had, [gpuscan_begin] raises an out-of-memory error that names the one
    that failed first, and returns no scan state; it releases nothing,
    the shared memory context it got before the message queue failed
    stays acquired. *)
Lemma gpuscan_begin_failure gsplan w :
  supply w ShmemContext = None \/ supply w MsgQueue = None ->
  exists e w',
    gpuscan_begin gsplan w = (Raise e, w')
    /\ sqlerrcode e = ERRCODE_OUT_OF_MEMORY
    /\ message e
       = match supply w ShmemContext with
         | None => "failed to create shared memory context"
         | Some _ => "failed to create message queue"
         end
    /\ history w'
       = (history w ++ match supply w ShmemContext with
                       | None => []
                       | Some h => [Acquired ShmemContext h]
                       end)%list
    /\ forall r h, release_count r h w' = release_count r h w.
Proof.
  intros Hfail.
  unfold gpuscan_begin, pgstrom_shmem_context_create, pgstrom_create_queue,
    acquire.
  destruct (supply w ShmemContext) as [h|] eqn:Hshm.
  - destruct Hfail as [|Hmq]; [done|]. cbn. rewrite Hmq. cbn.
    eexists _, _. split_and!; try done.
    intros r h'. unfold release_count. cbn [history].
    rewrite List.filter_app. cbn. rewrite bool_decide_false by done.
    by rewrite app_nil_r.
  - cbn. eexists _, _. split_and!; try done. by rewrite app_nil_r.
Qed.

(** C8: on every scan state the multi-exec method and the rescan method
    raise the error "not implemented yet"; neither returns a result, and
    neither does anything before it raises. *)
Theorem unimplemented_methods_raise node w :
  gpuscan_exec_multi node w
    = (Raise (mkError ERRCODE_INTERNAL_ERROR "not implemented yet"), w)
  /\ gpuscan_rescan node w
    = (Raise (mkError ERRCODE_INTERNAL_ERROR "not implemented yet"), w)
  /\ (forall result w', gpuscan_exec_multi node w <> (OK result, w'))
  /\ (forall result w', gpuscan_rescan node w <> (OK result, w'))
  /\ gpuscan_plan_methods MultiExecCustomPlan = gpuscan_exec_multi
  /\ gpuscan_plan_methods ReScanCustomPlan = gpuscan_rescan.
Proof. by split_and!. Qed.

End ExecutionFacts.


(** C7 fails on the code.  With the message queue not to be had, the
    error is raised while the shared memory context acquired just before
    is still held: it has not been released once.  (Each acquisition is
    followed by "TODO: add resource tracking here".)  And with the
    parameter buffer not to be had there is no error at all: unlike the
    two allocations before it, this one is not checked, and the scan
    state comes back with no parameter buffer. *)
Lemma gpuscan_begin_resource_defects :
  (exists e w',
      @gpuscan_begin sample_backend sample_plan
         (world_of (Some 1%positive) None (Some 3%positive))
      = (Raise e, w')
      /\ e = mkError ERRCODE_OUT_OF_MEMORY "failed to create message queue"
      /\ history w' = [Acquired ShmemContext 1%positive]
      /\ release_count ShmemContext 1%positive w' = 0%nat
      /\ held ShmemContext 1%positive w')
  /\ (exists node w',
        @gpuscan_begin sample_backend sample_plan
           (world_of (Some 1%positive) (Some 2%positive) None)
        = (OK node, w')
        /\ parambuf node = None
        /\ history w' = [Acquired ShmemContext 1%positive;
                         Acquired MsgQueue 2%positive]).
Proof.
  split.
  - eexists _, _. split; [reflexivity|]. cbn.
    split_and!; try reflexivity. split; [cbn; tauto|reflexivity].
  - eexists _, _. split; [reflexivity|]. by cbn.
Qed.

(** ** The copy of a plan node *)

Lemma deref_weaken (m m' : Mem.memory) p :
  m ⊆ m' -> Mem.valid m p -> Mem.deref m' p = Mem.deref m p.
Proof.
  intros Hsub Hp. destruct p as [a|]; [|done]. destruct Hp as [o Ho].
  cbn. by rewrite Ho, (lookup_weaken _ _ _ _ Ho Hsub).
Qed.

(** One [copyObject] in the course of the copy: [m0] is the memory the
    copy started from, [m] the memory by now. *)
Lemma copyObject_copies (m0 m : Mem.memory) p :
  m0 ⊆ m -> Mem.valid m0 p ->
  exists p' m',
    Mem.copyObject p m = (p', m')
    /\ m ⊆ m'
    /\ Mem.valid m' p'
    /\ Mem.deref m' p' = Mem.deref m0 p
    /\ match p' with
       | Some a' => m0 !! a' = None
       | None => p = None
       end.
Proof.
  intros Hsub Hp. unfold Mem.copyObject.
  rewrite (deref_weaken _ _ _ Hsub Hp).
  destruct p as [a|]; cbn.
  - destruct Hp as [o Ho]. rewrite Ho. unfold Mem.alloc.
    assert (m !! fresh (dom m) = None) as Hfresh
      by (apply not_elem_of_dom, is_fresh).
    eexists _, _. split_and!; [done|..].
    + by apply insert_subseteq.
    + cbn. rewrite lookup_insert_eq. by eexists.
    + cbn. by rewrite lookup_insert_eq.
    + eapply lookup_weaken_None; done.
  - eexists _, _. split_and!; done.
Qed.

(** C10: the copy of a plan node has the [scanrelid] and the
    [extra_flags] of the original, fresh copies of its [used_params],
    [used_vars], [dev_attrs] and [host_attrs], and the very [dev_clauses]
    list of the original (the same address, not a copy); its
    [kern_source] is never assigned: it is what the unzeroed allocation
    held, whatever the original's is.  The original and what it points
    to are left as they were. *)
Theorem gpuscan_copy_plan_fields garbage from m :
  Mem.valid_plan m from ->
  exists newnode m',
    Mem.gpuscan_copy_plan garbage from m = (newnode, m')
    /\ m ⊆ m'
    /\ Mem.scanrelid newnode = Mem.scanrelid from
    /\ Mem.extra_flags newnode = Mem.extra_flags from
    /\ Mem.is_copy m m' (Mem.used_params from) (Mem.used_params newnode)
    /\ Mem.is_copy m m' (Mem.used_vars from) (Mem.used_vars newnode)
    /\ Mem.is_copy m m' (Mem.dev_attrs from) (Mem.dev_attrs newnode)
    /\ Mem.is_copy m m' (Mem.host_attrs from) (Mem.host_attrs newnode)
    /\ Mem.kern_source newnode = Mem.kern_source garbage
    /\ Mem.dev_clauses newnode = Mem.dev_clauses from.
Proof.
  intros (Htl & Hql & _ & Hup & Huv & _ & Hda & Hha).
  unfold Mem.gpuscan_copy_plan, Mem.CopyCustomPlanCommon, Mem.bms_copy.
  destruct (copyObject_copies m m _ (reflexivity m) Htl)
    as (p1 & m1 & -> & S1 & _).
  destruct (copyObject_copies m m1 _ S1 Hql) as (p2 & m2 & -> & S2 & _).
  assert (m ⊆ m2) as T2 by (by transitivity m1).
  destruct (copyObject_copies m m2 _ T2 Hup)
    as (p3 & m3 & -> & S3 & V3 & D3 & F3).
  assert (m ⊆ m3) as T3 by (by transitivity m2).
  destruct (copyObject_copies m m3 _ T3 Huv)
    as (p4 & m4 & -> & S4 & V4 & D4 & F4).
  assert (m ⊆ m4) as T4 by (by transitivity m3).
  destruct (copyObject_copies m m4 _ T4 Hda)
    as (p5 & m5 & -> & S5 & V5 & D5 & F5).
  assert (m ⊆ m5) as T5 by (by transitivity m4).
  destruct (copyObject_copies m m5 _ T5 Hha)
    as (p6 & m6 & -> & S6 & V6 & D6 & F6).
  assert (m ⊆ m6) as T6 by (by transitivity m5).
  eexists _, _. split; [reflexivity|]. cbn.
  split_and!; try done; split; try done.
  - rewrite <- D3. apply deref_weaken; [|done].
    transitivity m4; [done|]. by transitivity m5.
  - rewrite <- D4. apply deref_weaken; [|done]. by transitivity m5.
  - rewrite <- D5. by apply deref_weaken.
Qed.

(** ** The statements at work *)


(** The symbols of the source for "colA > 5". *)
Lemma gpuscan_codegen_quals_symbols_witness :
  exists src,
    @gpuscan_codegen_quals sample_postgres sample_codegen
       [colA_gt_5] context_zero
    = OK (Some src,
          mkContext [T_Const (mkConst INT4OID 5 false)] [colA] 0)
    /\ forall s, In s (symbols src) -> s <> "used_vars" ->
         In s (declared_symbols
                 (mkContext [T_Const (mkConst INT4OID 5 false)] [colA] 0))
         \/ In s entry_point_arguments
         \/ In s opencl_words
         \/ In s device_runtime_symbols
         \/ @is_accessor sample_codegen s
         \/ In s (symbols "pgfn_int4gt(KVAR_0, KPARAM_0)").
Proof.
  apply (@gpuscan_codegen_quals_symbols sample_postgres sample_codegen
           [colA_gt_5] context_zero).
  - discriminate.
  - vm_compute. reflexivity.
  - repeat constructor; eexists; (split; [reflexivity|]);
      vm_compute; eexists; reflexivity.
  - repeat constructor. vm_compute. eexists; reflexivity.
  - intros oid dtype. cbn. unfold sample_devtype_lookup.
    repeat case_decide; intros [= <-]; reflexivity.
Defined.




(** The copy of the sample node into an allocation that held garbage. *)
Lemma gpuscan_copy_plan_fields_witness :
  exists newnode m',
    Mem.gpuscan_copy_plan Mem.sample_garbage Mem.sample_node
      Mem.sample_memory = (newnode, m')
    /\ Mem.kern_source newnode = Some 77%positive
    /\ Mem.dev_clauses newnode = Some 3%positive.
Proof.
  destruct (gpuscan_copy_plan_fields Mem.sample_garbage Mem.sample_node
              Mem.sample_memory)
    as (newnode & m' & Hcopy & _ & _ & _ & _ & _ & _ & _ & Hks & Hdc).
  - unfold Mem.valid_plan. cbn.
    split_and!; try exact I; vm_compute; eexists; reflexivity.
  - exists newnode, m'. split_and!; [exact Hcopy|exact Hks|exact Hdc].
Defined.

(** ** More on the cost of a path *)

Section PathCostFacts.

Context `{Postgres} `{Codegen}.




End PathCostFacts.

(** ** The columns of the two groups *)

Section AttributeFacts.

Context `{Postgres} `{Codegen}.

Lemma elem_of_pull_clauses quals attrs a :
  pull_varattnos_adds ->
  a ∈ pull_clauses quals attrs
  <-> a ∈ attrs
      \/ exists rinfo, rinfo ∈ quals /\ a ∈ pull_varattnos (clause rinfo) ∅.
Proof.
  intros Hadds. revert attrs.
  induction quals as [|rinfo quals IH]; intros attrs; cbn.
  - split; [tauto|]. intros [?|(r & Hr & _)]; [done|]. by inversion Hr.
  - unfold pull_clauses in IH. rewrite IH, Hadds, elem_of_union.
    setoid_rewrite elem_of_cons. split.
    + intros [[?|?]|(r & ? & ?)]; eauto 6.
    + intros [?|(r & [->|?] & ?)]; eauto 6.
Qed.

(** X4: when [pull_varattnos] adds the columns of a node to the set it is
    given, [dev_attrs] holds exactly the columns of the clauses of the
    device group, and [host_attrs] exactly the columns of the clauses of
    the host group and of the target list. *)
Theorem gpuscan_add_scan_path_attrs enable_gpuscan baserel pathnode :
  pull_varattnos_adds ->
  gpuscan_add_scan_path enable_gpuscan baserel = OK pathnode ->
  (forall a, a ∈ dev_attrs pathnode
     <-> exists rinfo, rinfo ∈ dev_quals pathnode
                       /\ a ∈ pull_varattnos (clause rinfo) ∅)
  /\ (forall a, a ∈ host_attrs pathnode
        <-> (exists rinfo, rinfo ∈ host_quals pathnode
                           /\ a ∈ pull_varattnos (clause rinfo) ∅)
            \/ a ∈ pull_varattnos (T_List (reltargetlist baserel)) ∅).
Proof.
  intros Hadds [= <-]. cbn [dev_attrs dev_quals host_attrs host_quals].
  rewrite classify_closed_form.
  cbn [g_dev_attrs g_dev_quals g_host_attrs g_host_quals].
  split; intros a.
  - rewrite elem_of_pull_clauses by done. rewrite elem_of_empty. tauto.
  - rewrite Hadds, elem_of_union, elem_of_pull_clauses by done.
    rewrite elem_of_empty. tauto.
Qed.

End AttributeFacts.

(** An induction principle for nodes that reaches the arguments. *)
Lemma Node_nested_ind (P : Node -> Prop) :
  (forall con, P (T_Const con)) ->
  (forall param, P (T_Param param)) ->
  (forall var, P (T_Var var)) ->
  (forall funcid rettype args, Forall P args ->
     P (T_FuncExpr funcid rettype args)) ->
  (forall opno rettype args, Forall P args ->
     P (T_OpExpr opno rettype args)) ->
  (forall boolop args, Forall P args -> P (T_BoolExpr boolop args)) ->
  (forall elems, Forall P elems -> P (T_List elems)) ->
  forall node, P node.
Proof.
  intros HC HP HV HF HO HB HL.
  fix IH 1. intros [con|param|var|funcid rettype args|opno rettype args
                    |boolop args|elems].
  - apply HC.
  - apply HP.
  - apply HV.
  - apply HF. induction args as [|x args IHargs]; constructor; [apply IH|done].
  - apply HO. induction args as [|x args IHargs]; constructor; [apply IH|done].
  - apply HB. induction args as [|x args IHargs]; constructor; [apply IH|done].
  - apply HL. induction elems as [|x args IHargs]; constructor; [apply IH|done].
Qed.

(** The sample [pull_varattnos] adds to the set it is given. *)
Lemma sample_pull_varattnos_adds :
  @pull_varattnos_adds sample_postgres.
Proof.
  unfold pull_varattnos_adds. cbn.
  assert (forall l,
    Forall (fun node => forall attrs,
              sample_pull_varattnos node attrs
              = sample_pull_varattnos node ∅ ∪ attrs) l ->
    forall attrs,
      sample_pull_varattnos (T_List l) attrs
      = sample_pull_varattnos (T_List l) ∅ ∪ attrs) as Hlist.
  { intros l Hl. cbn.
    induction Hl as [|x l Hx _ IH]; intros attrs; cbn.
    - by rewrite (left_id_L ∅ (∪)).
    - rewrite IH, Hx, (IH (sample_pull_varattnos x ∅)).
      by rewrite (assoc_L (∪)). }
  induction node as [con|param|var|funcid rettype args IH|opno rettype args IH
                     |boolop args IH|elems IH] using Node_nested_ind;
    intros attrs.
  - cbn. by rewrite (left_id_L ∅ (∪)).
  - cbn. by rewrite (left_id_L ∅ (∪)).
  - cbn. by rewrite (right_id_L ∅ (∪)).
  - apply (Hlist _ IH).
  - apply (Hlist _ IH).
  - apply (Hlist _ IH).
  - apply (Hlist _ IH).
Qed.

(** ** When code generation fails, and what the source depends on *)

Section GenerationOutcomes.

Context `{Postgres} `{Codegen}.

Lemma codegen_quals_null_iff dev_quals context0 kern_source context :
  gpuscan_codegen_quals dev_quals context0 = OK (kern_source, context) ->
  (kern_source = None <-> dev_quals = [])
  /\ (dev_quals = [] -> context = context_zero).
Proof.
  unfold gpuscan_codegen_quals.
  destruct dev_quals as [|rinfo dev_quals].
  - intros [= <- <-]. done.
  - destruct (pgstrom_codegen_expression _ _) as [[expr_code ctx]|e];
      cbn [mbind Result_bind]; [|done].
    destruct (put_param_defs _ _ _) as [str1|e]; cbn [mbind Result_bind];
      [|done].
    destruct (put_var_defs _ _ _) as [str2|e]; cbn [mbind Result_bind];
      [|done].
    intros [= <- <-]. split; [split; discriminate | discriminate].
Qed.

(** X5: [gpuscan_codegen_quals] returns NULL for the source exactly when
    the list of device qualifiers is empty; it has then cleared the
    context, whatever the context held. *)
Theorem gpuscan_codegen_quals_null dev_quals context0 kern_source context :
  gpuscan_codegen_quals dev_quals context0 = OK (kern_source, context) ->
  (kern_source = None <-> dev_quals = [])
  /\ (dev_quals = [] -> context = context_zero).
Proof. intros Hgen. by eapply codegen_quals_null_iff. Qed.

Lemma put_param_defs_unexpected good node rest :
  Forall param_has_devtype good ->
  param_type node = None ->
  forall index str,
    put_param_defs (good ++ node :: rest) index str
    = elog ("unexpected node: " +:+ nodeToString node).
Proof.
  intros Hgood Hnode.
  induction Hgood as [|x good (oid & Hty & dtype & Hdt) _ IH];
    intros index str.
  - cbn [app put_param_defs]. by destruct node.
  - cbn [app]. destruct x; try discriminate; cbn in Hty; simplify_eq;
      cbn [put_param_defs]; unfold devtype_of; rewrite Hdt;
      cbn [mbind Result_bind]; apply IH.
Qed.

Lemma put_param_defs_ok cells :
  forall index str str',
    put_param_defs cells index str = OK str' ->
    Forall param_has_devtype cells.
Proof.
  induction cells as [|node cells IH]; intros index str str' Hput;
    [constructor|].
  destruct node; try discriminate; cbn [put_param_defs] in Hput;
    unfold devtype_of in Hput.
  - destruct (pgstrom_devtype_lookup (consttype con)) as [dtype|] eqn:Hdt;
      [|discriminate].
    constructor; [|by eapply IH]. eexists. split; [reflexivity|]. by eexists.
  - destruct (pgstrom_devtype_lookup (paramtype param)) as [dtype|] eqn:Hdt;
      [|discriminate].
    constructor; [|by eapply IH]. eexists. split; [reflexivity|]. by eexists.
Qed.

Lemma put_var_defs_ok cells :
  forall index str str',
    put_var_defs cells index str = OK str' ->
    Forall var_has_devtype cells.
Proof.
  induction cells as [|var cells IH]; intros index str str' Hput;
    [constructor|].
  cbn [put_var_defs] in Hput. unfold devtype_of in Hput.
  destruct (pgstrom_devtype_lookup (vartype var)) as [dtype|] eqn:Hdt;
    [|discriminate].
  constructor; [by eexists | by eapply IH].
Qed.

(** X6: for a non-empty device group, an error that the expression
    generator raises comes out of [gpuscan_codegen_quals] as it is; and
    when the first used parameter that is not a [Const] or a [Param] of a
    device type is no [Const] and no [Param] at all, the error is
    "unexpected node: " followed by the text of that node. *)
Theorem gpuscan_codegen_quals_raises dev_quals context0 :
  dev_quals <> [] ->
  (forall e,
      pgstrom_codegen_expression dev_quals context_zero = Raise e ->
      gpuscan_codegen_quals dev_quals context0 = Raise e)
  /\ (forall expr_code context good node rest,
        pgstrom_codegen_expression dev_quals context_zero
          = OK (expr_code, context) ->
        used_params context = (good ++ node :: rest)%list ->
        Forall param_has_devtype good ->
        param_type node = None ->
        gpuscan_codegen_quals dev_quals context0
        = elog ("unexpected node: " +:+ nodeToString node)).
Proof.
  intros Hne. destruct dev_quals as [|rinfo dev_quals]; [done|].
  unfold gpuscan_codegen_quals. split.
  - by intros e ->.
  - intros expr_code context good node rest -> Hparams Hgood Hnode.
    cbn [mbind Result_bind]. rewrite Hparams.
    by rewrite (put_param_defs_unexpected _ _ _ Hgood Hnode).
Qed.

(** X7: for a non-empty device group [gpuscan_codegen_quals] returns a
    source exactly when the expression generator returns, every used
    parameter is a [Const] or a [Param] of a type the device knows, and
    every used variable is of such a type. *)
Theorem gpuscan_codegen_quals_succeeds dev_quals context0 :
  dev_quals <> [] ->
  (exists kern_source context,
      gpuscan_codegen_quals dev_quals context0 = OK (kern_source, context))
  <-> (exists expr_code context,
         pgstrom_codegen_expression dev_quals context_zero
           = OK (expr_code, context)
         /\ Forall param_has_devtype (used_params context)
         /\ Forall var_has_devtype (used_vars context)).
Proof.
  intros Hne. split.
  - intros (kern_source & context & Hrun).
    unfold gpuscan_codegen_quals in Hrun.
    destruct dev_quals as [|rinfo dev_quals]; [done|].
    destruct (pgstrom_codegen_expression _ _) as [[expr_code ctx]|e];
      cbn [mbind Result_bind] in Hrun; [|done].
    destruct (put_param_defs _ _ _) as [str1|e] eqn:Hp;
      cbn [mbind Result_bind] in Hrun; [|done].
    destruct (put_var_defs _ _ _) as [str2|e] eqn:Hv;
      cbn [mbind Result_bind] in Hrun; [|done].
    exists expr_code, ctx. split_and!; [done|..].
    + by eapply put_param_defs_ok.
    + by eapply put_var_defs_ok.
  - intros (expr_code & context & Hexpr & Hparams & Hvars).
    eexists _, _. by apply codegen_quals_source.
Qed.

Lemma param_lines_by_type cells1 : forall cells2 first,
  map param_type cells1 = map param_type cells2 ->
  param_lines cells1 first = param_lines cells2 first.
Proof.
  induction cells1 as [|n1 cells1 IH]; intros [|n2 cells2] first Hty;
    try done.
  injection Hty as Hn Hrest. cbn [param_lines]. by rewrite Hn, (IH cells2).
Qed.

Lemma var_lines_by_type cells1 : forall cells2 first,
  map vartype cells1 = map vartype cells2 ->
  var_lines cells1 first = var_lines cells2 first.
Proof.
  induction cells1 as [|v1 cells1 IH]; intros [|v2 cells2] first Hty;
    try done.
  injection Hty as Hv Hrest. cbn [var_lines]. by rewrite Hv, (IH cells2).
Qed.

Lemma param_has_devtype_by_type cells1 : forall cells2,
  map param_type cells1 = map param_type cells2 ->
  Forall param_has_devtype cells1 -> Forall param_has_devtype cells2.
Proof.
  induction cells1 as [|n1 cells1 IH]; intros [|n2 cells2] Hty Hall;
    try done.
  injection Hty as Hn Hrest. apply Forall_cons in Hall as [Hn1 Hall].
  constructor; [|by apply IH].
  unfold param_has_devtype in *. by rewrite <- Hn.
Qed.

Lemma var_has_devtype_by_type cells1 : forall cells2,
  map vartype cells1 = map vartype cells2 ->
  Forall var_has_devtype cells1 -> Forall var_has_devtype cells2.
Proof.
  induction cells1 as [|v1 cells1 IH]; intros [|v2 cells2] Hty Hall;
    try done.
  injection Hty as Hv Hrest. apply Forall_cons in Hall as [Hv1 Hall].
  constructor; [|by apply IH].
  unfold var_has_devtype in *. by rewrite <- Hv.
Qed.

Lemma used_vars_array_by_attno vars1 vars2 :
  map varattno vars1 = map varattno vars2 ->
  used_vars_array vars1 = used_vars_array vars2.
Proof.
  intros Hattno. unfold used_vars_array.
  by rewrite <- !(map_map varattno fmt_u), Hattno.
Qed.

(** X8: the source depends on the used parameters through their types
    only and on the used variables through their types and column numbers
    only: two device groups with the same expression code, whose used
    parameters and variables agree in these, get the same source, byte
    for byte, whatever the values of their constants and the range table
    index of their variables. *)
Theorem gpuscan_codegen_quals_by_types dev_quals1 dev_quals2
    context01 context02 expr_code context1 context2 kern_source :
  dev_quals2 <> [] ->
  pgstrom_codegen_expression dev_quals1 context_zero
    = OK (expr_code, context1) ->
  pgstrom_codegen_expression dev_quals2 context_zero
    = OK (expr_code, context2) ->
  map param_type (used_params context1)
    = map param_type (used_params context2) ->
  map vartype (used_vars context1) = map vartype (used_vars context2) ->
  map varattno (used_vars context1) = map varattno (used_vars context2) ->
  gpuscan_codegen_quals dev_quals1 context01
    = OK (Some kern_source, context1) ->
  gpuscan_codegen_quals dev_quals2 context02
    = OK (Some kern_source, context2).
Proof.
  intros Hne2 Hexpr1 Hexpr2 Hptype Hvtype Hattno Hgen.
  assert (dev_quals1 <> []) as Hne1 by (by intros ->).
  assert (Forall param_has_devtype (used_params context1)
          /\ Forall var_has_devtype (used_vars context1)) as [Hp Hv].
  { unfold gpuscan_codegen_quals in Hgen.
    destruct dev_quals1 as [|rinfo dev_quals1]; [done|].
    rewrite Hexpr1 in Hgen. cbn [mbind Result_bind] in Hgen.
    destruct (put_param_defs _ _ _) as [str1|e] eqn:Hput1;
      cbn [mbind Result_bind] in Hgen; [|done].
    destruct (put_var_defs _ _ _) as [str2|e] eqn:Hput2;
      cbn [mbind Result_bind] in Hgen; [|done].
    split; [by eapply put_param_defs_ok | by eapply put_var_defs_ok]. }
  rewrite (codegen_quals_source _ context01 _ _ Hne1 Hexpr1 Hp Hv) in Hgen.
  injection Hgen as <-.
  rewrite (codegen_quals_source _ context02 _ _ Hne2 Hexpr2
             (param_has_devtype_by_type _ _ Hptype Hp)
             (var_has_devtype_by_type _ _ Hvtype Hv)).
  by rewrite (param_lines_by_type _ _ _ Hptype),
     (var_lines_by_type _ _ _ Hvtype),
     (used_vars_array_by_attno _ _ Hattno).
Qed.

End GenerationOutcomes.

(** ** From the path to the plan and the scan *)

Section PlanFacts.

Context `{Postgres} `{Codegen} `{CreatePlan} `{Backend}.

(** The plan node, given what the code generator returns. *)
Lemma gpuscan_create_plan_ok rel gpath context0 gscan :
  gpuscan_create_plan rel gpath context0 = OK gscan ->
  gpuscan_codegen_quals (dev_quals gpath) context0
  = OK (kern_source gscan,
        mkContext (plan_used_params gscan) (plan_used_vars gscan)
                  (plan_extra_flags gscan))
  /\ scanrelid gscan = relid rel
  /\ plan_dev_attrs gscan = dev_attrs gpath
  /\ plan_host_attrs gscan = host_attrs gpath.
Proof.
  unfold gpuscan_create_plan.
  destruct (gpuscan_codegen_quals (dev_quals gpath) context0)
    as [[src [ps vs fl]]|e]; [|by destruct (param_info gpath)].
  destruct (param_info gpath); intros [= <-]; done.
Qed.

(** X9: the kernel source, the used parameters, the used variables and
    the extra flags of a plan are what [gpuscan_codegen_quals] gives for
    the device qualifiers of the path as the path lists them, whatever
    the context local held and whatever order [order_qual_clauses] puts
    the clauses in; the plan has no kernel source exactly when the path
    has no device qualifier; and [gpuscan_create_plan] raises exactly
    the errors of the code generator. *)
Theorem gpuscan_create_plan_kernel rel gpath context0 :
  (forall gscan,
      gpuscan_create_plan rel gpath context0 = OK gscan ->
      (forall context,
          gpuscan_codegen_quals (dev_quals gpath) context
          = OK (kern_source gscan,
                mkContext (plan_used_params gscan) (plan_used_vars gscan)
                          (plan_extra_flags gscan)))
      /\ (kern_source gscan = None <-> dev_quals gpath = []))
  /\ (forall e,
        gpuscan_create_plan rel gpath context0 = Raise e
        <-> gpuscan_codegen_quals (dev_quals gpath) context0 = Raise e).
Proof.
  split.
  - intros gscan Hplan.
    apply gpuscan_create_plan_ok in Hplan as (Hgen & _).
    split; [intros context; by rewrite <- Hgen|].
    by apply codegen_quals_null_iff in Hgen as [? _].
  - intros e. unfold gpuscan_create_plan.
    destruct (gpuscan_codegen_quals (dev_quals gpath) context0)
      as [[src ctx]|e']; destruct (param_info gpath); cbn; split;
      (done || by intros [= ->]).
Qed.

Lemma gpuscan_begin_dprog_key gsplan w node w' :
  gpuscan_begin gsplan w = (OK node, w') ->
  dprog_key node
  = match kern_source gsplan with
    | Some src => pgstrom_get_devprog_key src (plan_extra_flags gsplan)
    | None => 0
    end.
Proof.
  unfold gpuscan_begin, pgstrom_shmem_context_create, pgstrom_create_queue,
    pgstrom_create_parambuf, acquire.
  repeat (case_match; simplify_eq/=; try done).
  all: intros [= <- _]; done.
Qed.

Lemma filter_none {A} (P : A -> Prop) `{forall x, Decision (P x)}
    (l : list A) :
  (forall x, x ∈ l -> ~ P x) -> filter P l = [].
Proof.
  induction l as [|x l IH]; intros Hl; [done|].
  rewrite filter_cons_False by (apply Hl; left).
  apply IH. intros y Hy. apply Hl. by right.
Qed.

Lemma filter_all {A} (P : A -> Prop) `{forall x, Decision (P x)}
    (l : list A) :
  (forall x, x ∈ l -> P x) -> filter P l = l.
Proof.
  induction l as [|x l IH]; intros Hl; [done|].
  rewrite filter_cons_True by (apply Hl; left).
  f_equal. apply IH. intros y Hy. apply Hl. by right.
Qed.

(** X10: when no restriction clause of the relation passes the
    capability test, the hook still offers a path, with an empty device
    group and no device column; the plan made of it has no kernel source,
    no used parameter or variable and no extra flag; and a scan begun on
    that plan has the program key 0. *)
Theorem gpuscan_without_device_clause enable_gpuscan baserel context0 :
  (forall rinfo, rinfo ∈ baserestrictinfo baserel ->
     pgstrom_codegen_available_expression (clause rinfo) = false) ->
  exists pathnode gscan,
    gpuscan_add_scan_path enable_gpuscan baserel = OK pathnode
    /\ dev_quals pathnode = []
    /\ host_quals pathnode = baserestrictinfo baserel
    /\ dev_attrs pathnode = ∅
    /\ gpuscan_create_plan baserel pathnode context0 = OK gscan
    /\ kern_source gscan = None
    /\ plan_used_params gscan = []
    /\ plan_used_vars gscan = []
    /\ plan_extra_flags gscan = 0
    /\ forall w node w',
         gpuscan_begin gscan w = (OK node, w') -> dprog_key node = 0.
Proof.
  intros Hnone.
  assert (classify_quals (baserestrictinfo baserel)
          = mkQualGroups [] (baserestrictinfo baserel) ∅
              (pull_clauses (baserestrictinfo baserel) ∅)) as Hclass.
  { rewrite classify_closed_form.
    rewrite filter_none, filter_all; [done|..].
    - intros r Hr. rewrite (Hnone r Hr). cbn. tauto.
    - intros r Hr. rewrite (Hnone r Hr). cbn. tauto. }
  unfold gpuscan_add_scan_path. rewrite Hclass.
  cbn [g_dev_quals g_host_quals g_dev_attrs g_host_attrs].
  unfold gpuscan_create_plan.
  destruct (get_baserel_parampathinfo baserel) as [pi|].
  all: eexists _, _; split; [reflexivity|].
  all: cbn [dev_quals host_quals dev_attrs param_info].
  all: split_and!; try done.
  all: intros w node w' Hbegin; apply gpuscan_begin_dprog_key in Hbegin.
  all: by rewrite Hbegin.
Qed.

(** X11: a restriction clause that passes the capability test is in the
    device group of the path; a plan made of the path then has a kernel
    source, and a scan begun on the plan has the program key that
    [pgstrom_get_devprog_key] gives for this source and the extra flags
    of the plan. *)
Theorem gpuscan_with_device_clause enable_gpuscan baserel pathnode
    context0 gscan rinfo :
  rinfo ∈ baserestrictinfo baserel ->
  pgstrom_codegen_available_expression (clause rinfo) = true ->
  gpuscan_add_scan_path enable_gpuscan baserel = OK pathnode ->
  gpuscan_create_plan baserel pathnode context0 = OK gscan ->
  rinfo ∈ dev_quals pathnode
  /\ exists src,
       kern_source gscan = Some src
       /\ forall w node w',
            gpuscan_begin gscan w = (OK node, w') ->
            dprog_key node
            = pgstrom_get_devprog_key src (plan_extra_flags gscan).
Proof.
  intros Hin Havail [= <-] Hplan.
  assert (rinfo ∈ g_dev_quals (classify_quals (baserestrictinfo baserel)))
    as Hdev.
  { rewrite classify_closed_form. cbn [g_dev_quals].
    apply list_elem_of_filter. split; [|done]. by rewrite Havail. }
  split; [exact Hdev|].
  apply gpuscan_create_plan_ok in Hplan as (Hgen & _).
  cbn [dev_quals] in Hgen.
  apply codegen_quals_null_iff in Hgen as [Hnull _].
  destruct (kern_source gscan) as [src|] eqn:Hsrc.
  - exists src. split; [done|]. intros w node w' Hbegin.
    apply gpuscan_begin_dprog_key in Hbegin. by rewrite Hbegin, Hsrc.
  - destruct Hnull as [Hnull _]. rewrite Hnull in Hdev by done.
    by apply elem_of_nil in Hdev.
Qed.

End PlanFacts.

(** ** Tokens *)

Lemma outToken_loop_app s : forall str,
  outToken_loop s str = str +:+ outToken_loop s "".
Proof.
  induction s as [|c s IH]; intros str; cbn [outToken_loop].
  - by rewrite append_nil_r.
  - rewrite IH, (IH (appendStringInfoChar _ c)).
    unfold appendStringInfoChar.
    destruct (backslashed_anywhere c);
      by rewrite ?append_nil_l, ?append_assoc.
Qed.

Lemma outToken_loop_cons c s :
  outToken_loop (String c s) ""
  = if backslashed_anywhere c
    then String backslash (String c (outToken_loop s ""))
    else String c (outToken_loop s "").
Proof.
  cbn [outToken_loop]. rewrite outToken_loop_app.
  unfold appendStringInfoChar. by destruct (backslashed_anywhere c).
Qed.

Lemma outToken_app str s : _outToken str s = str +:+ _outToken "" s.
Proof.
  destruct s as [[|c s]|]; try done.
  unfold _outToken. destruct (backslashed_at_start _).
  - rewrite outToken_loop_app.
    rewrite (outToken_loop_app _ (appendStringInfoChar "" backslash)).
    unfold appendStringInfoChar. by rewrite append_nil_l, append_assoc.
  - apply outToken_loop_app.
Qed.

Lemma outToken_cons c s :
  _outToken "" (Some (String c s))
  = if backslashed_at_start (String c s)
    then String backslash (outToken_loop (String c s) "")
    else outToken_loop (String c s) "".
Proof.
  unfold _outToken. rewrite outToken_loop_app. unfold appendStringInfoChar.
  by destruct (backslashed_at_start _).
Qed.

Lemma backslashed_anywhere_false c :
  backslashed_anywhere c = false ->
  is_delimiter c = false /\ (c =? backslash)%char = false.
Proof. unfold backslashed_anywhere. apply orb_false_elim. Qed.

(** No character is backslashed both at the start and anywhere. *)
Lemma backslashed_at_start_once c s :
  backslashed_at_start (String c s) = true -> backslashed_anywhere c = false.
Proof.
  destruct c as [[] [] [] [] [] [] [] []]; try done; cbn; try discriminate.
Qed.

Lemma one_token_loop s : one_token (outToken_loop s "") = true.
Proof.
  induction s as [|c s IH]; [done|]. rewrite outToken_loop_cons.
  destruct (backslashed_anywhere c) eqn:Hc.
  - exact IH.
  - apply backslashed_anywhere_false in Hc as [Hd Hb].
    cbn [one_token]. by rewrite Hb, Hd.
Qed.

Lemma unprotect_loop s : unprotect (outToken_loop s "") = s.
Proof.
  induction s as [|c s IH]; [done|]. rewrite outToken_loop_cons.
  destruct (backslashed_anywhere c) eqn:Hc.
  - cbn. by rewrite IH.
  - apply backslashed_anywhere_false in Hc as [_ Hb].
    cbn [unprotect]. by rewrite Hb, IH.
Qed.

Lemma one_token_outToken s :
  _outToken "" s <> "" /\ one_token (_outToken "" s) = true.
Proof.
  destruct s as [[|c s]|]; try done.
  rewrite outToken_cons.
  destruct (backslashed_at_start _) eqn:Hs.
  - split; [done|]. apply backslashed_at_start_once in Hs.
    rewrite outToken_loop_cons, Hs. apply one_token_loop.
  - split; [|apply one_token_loop].
    rewrite outToken_loop_cons. by destruct (backslashed_anywhere c).
Qed.

(** X12: [_outToken] leaves what the buffer holds as it is and appends
    one token that is not empty, for every string and for NULL: in what
    it appends, every blank, newline, tab, parenthesis and brace is
    protected by a backslash, and no backslash is left at the end. *)
Theorem outToken_one_token str s :
  exists token,
    _outToken str s = str +:+ token
    /\ token <> ""
    /\ one_token token = true.
Proof.
  exists (_outToken "" s). split; [apply outToken_app|].
  apply one_token_outToken.
Qed.

Lemma unprotect_outToken s :
  s <> "" -> unprotect (_outToken "" (Some s)) = s.
Proof.
  destruct s as [|c t]; [done|]. intros _. rewrite outToken_cons.
  destruct (backslashed_at_start _) eqn:Hs; [|apply unprotect_loop].
  apply backslashed_at_start_once in Hs.
  rewrite outToken_loop_cons, Hs. cbn. by rewrite unprotect_loop.
Qed.

Lemma outToken_not_null s : s <> "" -> _outToken "" (Some s) <> "<>".
Proof.
  intros Hne Heq. pose proof (f_equal unprotect Heq) as Hs.
  rewrite unprotect_outToken in Hs by done. vm_compute in Hs. subst s.
  vm_compute in Heq. discriminate.
Qed.

(** X13: the token of a string that is not empty gives the string back
    when its protecting backslashes are dropped; it differs from the
    token of NULL and of the empty string; and two such strings with the
    same token are the same. *)
Theorem outToken_unprotect s :
  s <> "" ->
  unprotect (_outToken "" (Some s)) = s
  /\ _outToken "" (Some s) <> _outToken "" None
  /\ forall s', s' <> "" ->
       _outToken "" (Some s') = _outToken "" (Some s) -> s' = s.
Proof.
  intros Hne. split_and!.
  - by apply unprotect_outToken.
  - by apply outToken_not_null.
  - intros s' Hne' Heq. apply (f_equal unprotect) in Heq.
    by rewrite !unprotect_outToken in Heq.
Qed.

Lemma ident_char_not_backslashed c :
  is_ident_char c = true -> backslashed_anywhere c = false.
Proof. destruct c as [[] [] [] [] [] [] [] []]; done. Qed.

Lemma outToken_loop_ident s :
  all_ident s = true -> outToken_loop s "" = s.
Proof.
  induction s as [|c s IH]; [done|]. cbn [all_ident].
  intros [Hc Hs]%andb_true_iff. rewrite outToken_loop_cons.
  by rewrite (ident_char_not_backslashed _ Hc), IH.
Qed.

(** X14: an identifier -- letters, digits and underscores, the first of
    them no digit -- is appended as it is, without any backslash. *)
Theorem outToken_identifier str s :
  all_ident s = true -> is_symbol s = true ->
  _outToken str (Some s) = str +:+ s.
Proof.
  intros Hident Hsym. rewrite outToken_app. f_equal.
  destruct s as [|c s]; [done|]. rewrite outToken_cons.
  assert (backslashed_at_start (String c s) = false) as ->.
  { cbn [all_ident is_symbol] in *.
    apply andb_true_iff in Hident as [Hc _].
    revert Hc Hsym. clear.
    destruct c as [[] [] [] [] [] [] [] []]; done. }
  by apply outToken_loop_ident.
Qed.

Lemma outToken_loop_length s :
  (String.length s <= String.length (outToken_loop s "")
   <= 2 * String.length s)%nat.
Proof.
  induction s as [|c s IH]; [done|]. rewrite outToken_loop_cons.
  destruct (backslashed_anywhere c); cbn [String.length]; lia.
Qed.

(** X15: the token of a string of n characters, n not 0, has at least n
    and at most 2n+1 characters. *)
Theorem outToken_length s :
  s <> "" ->
  (String.length s <= String.length (_outToken "" (Some s))
   <= 2 * String.length s + 1)%nat.
Proof.
  intros Hne. destruct s as [|c s]; [done|]. rewrite outToken_cons.
  pose proof (outToken_loop_length (String c s)).
  destruct (backslashed_at_start _); cbn [String.length] in *; lia.
Qed.

(** ** Bitmapsets *)

Lemma bms_members_sorted a : Sorted Z.le (bms_members a).
Proof. apply (Sorted_merge_sort Z.le). Qed.

Lemma bms_members_NoDup a : NoDup (bms_members a).
Proof.
  unfold bms_members. rewrite merge_sort_Permutation. apply NoDup_elements.
Qed.

Lemma elem_of_bms_members a x : x ∈ bms_members a <-> x ∈ a.
Proof.
  unfold bms_members. by rewrite merge_sort_Permutation, elem_of_elements.
Qed.

Lemma bms_members_difference a x l :
  bms_members a = x :: l -> bms_members (a ∖ {[ x ]}) = l.
Proof.
  intros Ha.
  pose proof (bms_members_sorted a) as Hsorted.
  pose proof (bms_members_NoDup a) as Hnodup.
  rewrite Ha in Hsorted, Hnodup.
  apply NoDup_cons in Hnodup as [Hx Hnodup].
  apply (Sorted_unique Z.le).
  - apply bms_members_sorted.
  - by inversion Hsorted.
  - apply NoDup_Permutation; [apply bms_members_NoDup | done |].
    intros y. rewrite elem_of_bms_members, elem_of_difference.
    rewrite <- elem_of_bms_members, Ha, elem_of_cons, elem_of_singleton.
    split; [tauto|]. intros Hy. split; [by right|]. by intros ->.
Qed.

Lemma size_difference_member (a : Bitmapset) x :
  x ∈ a -> size a = S (size (a ∖ {[ x ]})).
Proof.
  intros Hx.
  assert (a = {[ x ]} ∪ a ∖ {[ x ]}) as Ha.
  { apply leibniz_equiv, union_difference, singleton_subseteq_l, Hx. }
  rewrite Ha at 1. rewrite size_union, size_singleton; [done|].
  apply disjoint_difference_r1. done.
Qed.

(** The loop prints the members of [tmpset], and stops because
    [tmpset] is empty, before the fuel is. *)
Lemma outBitmapset_loop_members fuel : forall tmpset str,
  (size tmpset < fuel)%nat ->
  (forall x, x ∈ tmpset -> 0 <= x) ->
  outBitmapset_loop fuel tmpset str
  = str +:+ String.concat ""
              (map (fun x => " " +:+ fmt_d x) (bms_members tmpset)).
Proof.
  induction fuel as [|fuel IH]; intros tmpset str Hfuel Hmembers; [lia|].
  cbn [outBitmapset_loop]. unfold bms_first_member.
  fold (bms_members tmpset).
  destruct (bms_members tmpset) as [|x l] eqn:Hl.
  - cbn. by rewrite append_nil_r.
  - assert (x ∈ tmpset) as Hx
      by (apply elem_of_bms_members; rewrite Hl; left).
    rewrite (proj2 (Z.leb_le 0 x)) by auto.
    rewrite IH.
    + rewrite (bms_members_difference _ _ _ Hl).
      cbn [map]. by rewrite concat_cons, !append_assoc.
    + rewrite (size_difference_member _ _ Hx) in Hfuel. lia.
    + intros y [Hy _]%elem_of_difference. by apply Hmembers.
Qed.

(** X16: for a set without negative members [_outBitmapset] appends
    "(b", then each member of the set once, in ascending order, in
    decimal with a blank before it, then ")"; the loop ends with all
    members printed. *)
Theorem outBitmapset_members str bms :
  (forall x, x ∈ bms -> 0 <= x) ->
  exists members,
    Sorted Z.le members
    /\ NoDup members
    /\ (forall x, x ∈ members <-> x ∈ bms)
    /\ _outBitmapset str bms
       = str +:+ "(b"
         +:+ String.concat "" (map (fun x => " " +:+ fmt_d x) members)
         +:+ ")".
Proof.
  intros Hmembers. exists (bms_members bms). split_and!.
  - apply bms_members_sorted.
  - apply bms_members_NoDup.
  - intros x. apply elem_of_bms_members.
  - unfold _outBitmapset, appendStringInfoChar.
    rewrite outBitmapset_loop_members by (lia || done).
    by rewrite !append_assoc.
Qed.

Lemma append_eq_nil (a b : string) : a +:+ b = "" -> a = "" /\ b = "".
Proof. destruct a; [by rewrite append_nil_l|by rewrite append_cons]. Qed.

Lemma append_inv_head (a x y : string) : a +:+ x = a +:+ y -> x = y.
Proof.
  induction a as [|c a IH]; [by rewrite !append_nil_l|].
  rewrite !append_cons. intros [= Heq]. by apply IH.
Qed.

(** A run of digits ends where the first other character stands. *)
Lemma digits_span (d1 : string) : forall d2 t1 t2,
  all_digits d1 = true -> all_digits d2 = true ->
  starts_with_nondigit t1 = true -> starts_with_nondigit t2 = true ->
  d1 +:+ t1 = d2 +:+ t2 -> d1 = d2 /\ t1 = t2.
Proof.
  induction d1 as [|c d1 IH]; intros [|c' d2] t1 t2 Hd1 Hd2 Ht1 Ht2;
    rewrite ?append_nil_l, ?append_cons; intros Heq.
  - done.
  - subst t1. cbn in Ht1, Hd2. apply andb_true_iff in Hd2 as [Hc _].
    by rewrite Hc in Ht1.
  - subst t2. cbn in Ht2, Hd1. apply andb_true_iff in Hd1 as [Hc _].
    by rewrite Hc in Ht2.
  - injection Heq as -> Heq. cbn in Hd1, Hd2.
    apply andb_true_iff in Hd1 as [_ Hd1].
    apply andb_true_iff in Hd2 as [_ Hd2].
    destruct (IH d2 t1 t2 Hd1 Hd2 Ht1 Ht2 Heq) as [-> ->]. done.
Qed.

Lemma fmt_d_nonneg_digits (x : Z) : 0 <= x -> all_digits (fmt_d x) = true.
Proof. intros Hx. rewrite <- (Z2Nat.id x Hx). apply fmt_d_digits. Qed.

Lemma members_text_cons x l :
  members_text (x :: l) = String " " (fmt_d x +:+ members_text l).
Proof.
  unfold members_text. cbn [map]. by rewrite concat_cons, !append_assoc.
Qed.

Lemma members_text_starts l : starts_with_nondigit (members_text l) = true.
Proof. destruct l; [done|]. by rewrite members_text_cons. Qed.

Lemma members_text_inj l1 : forall l2,
  Forall (fun x => 0 <= x) l1 -> Forall (fun x => 0 <= x) l2 ->
  members_text l1 = members_text l2 -> l1 = l2.
Proof.
  induction l1 as [|x l1 IH]; intros [|y l2] H1 H2;
    rewrite ?members_text_cons; intros Heq; try done.
  injection Heq as Heq.
  apply Forall_cons in H1 as [Hx H1]. apply Forall_cons in H2 as [Hy H2].
  apply digits_span in Heq as [Hxy Heq];
    [| by apply fmt_d_nonneg_digits | by apply fmt_d_nonneg_digits
     | apply members_text_starts | apply members_text_starts].
  apply (inj pretty) in Hxy as ->. f_equal. by apply IH.
Qed.

(** X22: the text [_outBitmapset] writes determines the set: two sets
    without negative members that are written as the same text are the
    same set. *)
Theorem outBitmapset_inj str bms1 bms2 :
  (forall x, x ∈ bms1 -> 0 <= x) ->
  (forall x, x ∈ bms2 -> 0 <= x) ->
  _outBitmapset str bms1 = _outBitmapset str bms2 ->
  bms1 = bms2.
Proof.
  intros H1 H2 Heq.
  unfold _outBitmapset, appendStringInfoChar in Heq.
  rewrite !outBitmapset_loop_members in Heq by (lia || done).
  rewrite !append_assoc in Heq.
  do 3 apply append_inv_head in Heq.
  apply members_text_inj in Heq.
  - apply set_eq. intros x. by rewrite <- !elem_of_bms_members, Heq.
  - apply Forall_forall. intros x Hx. by apply H1, elem_of_bms_members.
  - apply Forall_forall. intros x Hx. by apply H2, elem_of_bms_members.
Qed.

(** ** The text of a plan node *)

Lemma outBitmapset_loop_app fuel : forall tmpset str,
  outBitmapset_loop fuel tmpset str
  = str +:+ outBitmapset_loop fuel tmpset "".
Proof.
  induction fuel as [|fuel IH]; intros tmpset str; cbn [outBitmapset_loop].
  - by rewrite append_nil_r.
  - destruct (bms_first_member tmpset) as [x tmpset'].
    destruct (0 <=? x)%Z; [|by rewrite append_nil_r].
    rewrite IH, (IH _ ("" +:+ _)). by rewrite append_nil_l, !append_assoc.
Qed.

Lemma outBitmapset_app str bms :
  _outBitmapset str bms = str +:+ _outBitmapset "" bms.
Proof.
  unfold _outBitmapset, appendStringInfoChar.
  rewrite outBitmapset_loop_app, (outBitmapset_loop_app _ _ (("" +:+ _) +:+ _)).
  by rewrite append_nil_l, !append_assoc.
Qed.

Section TextFacts.

Context `{Postgres}.


End TextFacts.

Section PlanText.

Context `{Postgres} `{Codegen} `{CreatePlan}.

Lemma codegen_quals_source_nonempty dev_quals context0 src context :
  gpuscan_codegen_quals dev_quals context0 = OK (Some src, context) ->
  src <> "".
Proof.
  unfold gpuscan_codegen_quals.
  destruct dev_quals as [|rinfo dev_quals]; [done|].
  destruct (pgstrom_codegen_expression _ _) as [[expr_code ctx]|e];
    cbn [mbind Result_bind]; [|done].
  destruct (put_param_defs _ _ _) as [str1|e]; cbn [mbind Result_bind];
    [|done].
  destruct (put_var_defs _ _ _) as [str2|e]; cbn [mbind Result_bind];
    [|done].
  intros [= <- _] Hnil.
  apply append_eq_nil in Hnil as [_ Hnil].
  apply append_eq_nil in Hnil as [Hnil _].
  by vm_compute in Hnil.
Qed.


(** X24: for a path without parameters, when [order_qual_clauses] only
    reorders the clauses and [extract_actual_clauses] gives the
    expressions of the clauses that are not pseudoconstant, the device
    clauses and the host qualifier of the plan together are the
    expressions of the restriction clauses of the relation that are not
    pseudoconstant, each as often as it is among them; every device
    clause passes the capability test and no clause of the host qualifier
    does. *)
Theorem gpuscan_create_plan_clauses enable_gpuscan baserel pathnode
    context0 gscan :
  (forall clauses, order_qual_clauses clauses ≡ₚ clauses) ->
  (forall clauses,
      extract_actual_clauses clauses false
      = map clause (filter (fun rinfo => pseudoconstant rinfo = false)
                           clauses)) ->
  get_baserel_parampathinfo baserel = None ->
  gpuscan_add_scan_path enable_gpuscan baserel = OK pathnode ->
  gpuscan_create_plan baserel pathnode context0 = OK gscan ->
  (dev_clauses gscan ++ plan_qual gscan)%list
    ≡ₚ map clause (filter (fun rinfo => pseudoconstant rinfo = false)
                          (baserestrictinfo baserel))
  /\ (forall expr, expr ∈ dev_clauses gscan ->
        pgstrom_codegen_available_expression expr = true)
  /\ (forall expr, expr ∈ plan_qual gscan ->
        pgstrom_codegen_available_expression expr = false).
Proof.
  intros Horder Hextract Hparam [= <-] Hplan.
  unfold gpuscan_create_plan in Hplan.
  cbn [dev_quals host_quals param_info dev_attrs host_attrs] in Hplan.
  rewrite Hparam, !Hextract, classify_closed_form in Hplan.
  cbn [g_dev_quals g_host_quals] in Hplan.
  destruct (gpuscan_codegen_quals _ context0) as [[src ctx]|e];
    cbn [mbind Result_bind] in Hplan; [|done].
  injection Hplan as <-. cbn [dev_clauses plan_qual].
  split_and!.
  - rewrite <- map_app, <- filter_app, !Horder.
    by rewrite filter_app_complement.
  - intros expr (rinfo & -> & Hin)%list_elem_of_fmap.
    apply list_elem_of_filter in Hin as [_ Hin]. rewrite Horder in Hin.
    apply list_elem_of_filter in Hin as [Havail _].
    by destruct (pgstrom_codegen_available_expression (clause rinfo)).
  - intros expr (rinfo & -> & Hin)%list_elem_of_fmap.
    apply list_elem_of_filter in Hin as [_ Hin]. rewrite Horder in Hin.
    apply list_elem_of_filter in Hin as [Havail _].
    by destruct (pgstrom_codegen_available_expression (clause rinfo)).
Qed.

End PlanText.

(** ** More on the scan state *)

Section BeginFacts.

Context `{Backend}.

(** [gpuscan_begin], by what the three allocations return. *)
Lemma gpuscan_begin_cases gsplan w :
  gpuscan_begin gsplan w
  = match supply w ShmemContext, supply w MsgQueue with
    | None, _ =>
        (ereport ERRCODE_OUT_OF_MEMORY
           "failed to create shared memory context", w)
    | Some shm, None =>
        (ereport ERRCODE_OUT_OF_MEMORY "failed to create message queue",
         mkWorld (supply w) (history w ++ [Acquired ShmemContext shm]))
    | Some shm, Some mq =>
        (OK (mkGpuScanState GpuScanMode_HeapOnlyScan
               (Some shm) (Some mq) (supply w ParamBuf)
               match kern_source gsplan with
               | Some src =>
                   pgstrom_get_devprog_key src (plan_extra_flags gsplan)
               | None => 0
               end [] []),
         mkWorld (supply w)
           (history w
            ++ [Acquired ShmemContext shm; Acquired MsgQueue mq]
            ++ match supply w ParamBuf with
               | Some pb => [Acquired ParamBuf pb]
               | None => []
               end))
    end.
Proof.
  unfold gpuscan_begin, pgstrom_shmem_context_create, pgstrom_create_queue,
    pgstrom_create_parambuf, acquire.
  destruct (supply w ShmemContext) as [shm|]; [|done]. cbn.
  destruct (supply w MsgQueue) as [mq|]; [|done]. cbn.
  destruct (supply w ParamBuf) as [pb|]; cbn;
    by rewrite <- ?app_assoc, ?app_nil_r.
Qed.

(** X18: [gpuscan_begin] returns a scan state exactly when the shared
    memory context and the message queue can be had, whether or not the
    parameter buffer can; the state then holds the two handles, whatever
    the parameter buffer allocation returned, the program key of the
    kernel source (0 without one) and empty chunk lists, and the
    resources have been acquired in the order context, queue, buffer. *)
Theorem gpuscan_begin_returns gsplan w node w' :
  gpuscan_begin gsplan w = (OK node, w')
  <-> exists shm mq,
        supply w ShmemContext = Some shm
        /\ supply w MsgQueue = Some mq
        /\ node = mkGpuScanState GpuScanMode_HeapOnlyScan
                    (Some shm) (Some mq) (supply w ParamBuf)
                    match kern_source gsplan with
                    | Some src =>
                        pgstrom_get_devprog_key src (plan_extra_flags gsplan)
                    | None => 0
                    end [] []
        /\ w' = mkWorld (supply w)
                  (history w
                   ++ [Acquired ShmemContext shm; Acquired MsgQueue mq]
                   ++ match supply w ParamBuf with
                      | Some pb => [Acquired ParamBuf pb]
                      | None => []
                      end).
Proof.
  rewrite gpuscan_begin_cases.
  destruct (supply w ShmemContext) as [shm|];
    [|split; [done|by intros (? & ? & ? & _)]].
  destruct (supply w MsgQueue) as [mq|];
    [|split; [done|by intros (? & ? & _ & ? & _)]].
  split.
  - intros [= <- <-]. by eexists _, _.
  - by intros (? & ? & [= <-] & [= <-] & -> & ->).
Qed.

Lemma release_count_app r h w events :
  release_count r h (mkWorld (supply w) (history w ++ events))
  = (release_count r h w
     + length (List.filter (fun e => bool_decide (e = Released r h))
                 events))%nat.
Proof.
  unfold release_count. cbn [history].
  by rewrite List.filter_app, length_app.
Qed.

(** X20: no plan method releases a resource: after [gpuscan_begin] and
    any calls of the plan methods that return, the call of [gpuscan_end]
    among them, the scan state is the one [gpuscan_begin] returned,
    nothing has been released, and the shared memory context, the message
    queue and the parameter buffer of the state are still acquired. *)
Theorem gpuscan_scan_releases_nothing gsplan w node w' ms node' w'' :
  gpuscan_begin gsplan w = (OK node, w') ->
  run_methods ms node w' = (OK node', w'') ->
  node' = node
  /\ (forall r h, release_count r h w'' = release_count r h w)
  /\ (forall h, shmcontext node = Some h ->
        In (Acquired ShmemContext h) (history w''))
  /\ (forall h, mqueue node = Some h ->
        In (Acquired MsgQueue h) (history w''))
  /\ (forall h, parambuf node = Some h ->
        In (Acquired ParamBuf h) (history w'')).
Proof.
  intros Hbegin Hrun. apply run_methods_ok in Hrun as [-> ->].
  rewrite gpuscan_begin_cases in Hbegin.
  destruct (supply w ShmemContext) as [shm|]; [|done].
  destruct (supply w MsgQueue) as [mq|]; [|done].
  injection Hbegin as <- <-. cbn [shmcontext mqueue parambuf history].
  split_and!; [done|..].
  - intros r h. rewrite release_count_app.
    destruct (supply w ParamBuf); cbn;
      rewrite !bool_decide_false by done; cbn; lia.
  - intros h [= <-]. rewrite !in_app_iff. cbn. tauto.
  - intros h [= <-]. rewrite !in_app_iff. cbn. tauto.
  - intros h ->. rewrite !in_app_iff. cbn. tauto.
Qed.

End BeginFacts.

(** ** The name of the shared memory context *)

Lemma substring_length_le (k : nat) (s : string) :
  (String.length (String.substring 0 k s) <= k)%nat.
Proof.
  revert s. induction k as [|k IH]; intros [|c s]; cbn; try lia.
  specialize (IH s). lia.
Qed.

Lemma substring_all (k : nat) (s : string) :
  (String.length s <= k)%nat -> String.substring 0 k s = s.
Proof.
  revert s. induction k as [|k IH]; intros [|c s]; cbn; try done; try lia.
  intros Hk. rewrite IH by lia. done.
Qed.

Lemma all_digits_app_inv (a : string) (c : ascii) (b : string) :
  all_digits (a +:+ String c b) = true -> is_digit c = true.
Proof.
  induction a as [|x a IH].
  - rewrite append_nil_l. cbn. by intros [? _]%andb_true_iff.
  - rewrite append_cons. cbn. intros [_ ?]%andb_true_iff. by apply IH.
Qed.

(** What follows the last separator of a text. *)
Lemma after_last_separator (c : ascii) (a : string) :
  is_digit c = false ->
  forall b d1 d2,
    all_digits d1 = true -> all_digits d2 = true ->
    a +:+ String c d1 = b +:+ String c d2 -> d1 = d2.
Proof.
  intros Hc. induction a as [|x a IH]; intros [|y b] d1 d2 Hd1 Hd2;
    rewrite ?append_nil_l, ?append_cons; intros Heq.
  - by injection Heq.
  - injection Heq as _ Heq. rewrite Heq in Hd1.
    apply all_digits_app_inv in Hd1. congruence.
  - injection Heq as _ Heq. rewrite <- Heq in Hd2.
    apply all_digits_app_inv in Hd2. congruence.
  - injection Heq as _ Heq. by eapply IH.
Qed.

Section NameFacts.

Context `{Backend}.

Lemma gpuscan_namebuf_text_rtindex scanrelid :
  gpuscan_namebuf_text scanrelid
  = ("gpuscan(pid:" +:+ fmt_u MyProcPid +:+
     ", datoid:" +:+ fmt_u MyDatabaseId +:+
     ", reloid:" +:+ fmt_u (RelationGetRelid scanrelid) +:+
     ", rtindex") +:+ String ":" (fmt_u scanrelid).
Proof. unfold gpuscan_namebuf_text. by rewrite !append_assoc. Qed.


End NameFacts.

(** ** More statements at work *)


(** The device columns of the path for the sample relation. *)
Lemma gpuscan_add_scan_path_attrs_witness :
  exists pathnode,
    @gpuscan_add_scan_path sample_postgres sample_codegen true sample_rel
    = OK pathnode
    /\ (forall a, a ∈ dev_attrs pathnode
          <-> exists rinfo, rinfo ∈ dev_quals pathnode
                /\ a ∈ @pull_varattnos sample_postgres (clause rinfo) ∅).
Proof.
  eexists. split; [reflexivity|].
  refine (proj1 (@gpuscan_add_scan_path_attrs sample_postgres sample_codegen
                   true sample_rel _ sample_pull_varattnos_adds _)).
  reflexivity.
Defined.

(** No device qualifier, no source, and a cleared context. *)
Lemma gpuscan_codegen_quals_null_witness :
  (@None string = None <-> @nil RestrictInfo = [])
  /\ (@nil RestrictInfo = [] -> context_zero = context_zero).
Proof.
  apply (@gpuscan_codegen_quals_null sample_postgres sample_codegen []
           (mkContext [T_Var colA] [colB] 7) None context_zero).
  reflexivity.
Defined.

(** A generator that lists a [Var] among the used parameters. *)
Lemma gpuscan_codegen_quals_raises_witness :
  @gpuscan_codegen_quals sample_postgres var_as_param_codegen
    [colA_gt_5] context_zero
  = Raise (mkError ERRCODE_INTERNAL_ERROR "unexpected node: {VAR}").
Proof.
  refine (proj2 (@gpuscan_codegen_quals_raises sample_postgres
                   var_as_param_codegen [colA_gt_5] context_zero _)
            "KPARAM_1"
            (mkContext [T_Const (mkConst INT4OID 5 false); T_Var colA] [] 0)
            [T_Const (mkConst INT4OID 5 false)] (T_Var colA) [] _ _ _ _).
  - discriminate.
  - reflexivity.
  - reflexivity.
  - repeat constructor. eexists. split; [reflexivity|].
    vm_compute. eexists. reflexivity.
  - reflexivity.
Defined.

(** The source for "colA > 5" exists. *)
Lemma gpuscan_codegen_quals_succeeds_witness :
  exists kern_source context,
    @gpuscan_codegen_quals sample_postgres sample_codegen
      [colA_gt_5] context_zero = OK (kern_source, context).
Proof.
  apply (@gpuscan_codegen_quals_succeeds sample_postgres sample_codegen
           [colA_gt_5] context_zero).
  - discriminate.
  - exists "pgfn_int4gt(KVAR_0, KPARAM_0)",
           (mkContext [T_Const (mkConst INT4OID 5 false)] [colA] 0).
    split_and!.
    + vm_compute. reflexivity.
    + repeat constructor. eexists. split; [reflexivity|].
      vm_compute. eexists. reflexivity.
    + repeat constructor. vm_compute. eexists. reflexivity.
Defined.

(** "colA > 5" and "colA > 7" get the same source. *)
Lemma gpuscan_codegen_quals_by_types_witness :
  exists kern_source,
    @gpuscan_codegen_quals sample_postgres sample_codegen
      [colA_gt_5] context_zero
    = OK (Some kern_source,
          mkContext [T_Const (mkConst INT4OID 5 false)] [colA] 0)
    /\ @gpuscan_codegen_quals sample_postgres sample_codegen
         [colA_gt_7] context_zero
       = OK (Some kern_source,
             mkContext [T_Const (mkConst INT4OID 7 false)] [colA] 0).
Proof.
  eexists. split; [vm_compute; reflexivity|].
  apply (@gpuscan_codegen_quals_by_types sample_postgres sample_codegen
           [colA_gt_5] [colA_gt_7] context_zero context_zero
           "pgfn_int4gt(KVAR_0, KPARAM_0)"
           (mkContext [T_Const (mkConst INT4OID 5 false)] [colA] 0)).
  - discriminate.
  - vm_compute. reflexivity.
  - vm_compute. reflexivity.
  - reflexivity.
  - reflexivity.
  - reflexivity.
  - vm_compute. reflexivity.
Defined.

(** The plan for the path of the sample relation. *)
Lemma gpuscan_create_plan_kernel_witness :
  exists pathnode gscan,
    @gpuscan_add_scan_path sample_postgres sample_codegen true sample_rel
    = OK pathnode
    /\ @gpuscan_create_plan sample_postgres sample_codegen sample_createplan
         sample_rel pathnode context_zero = OK gscan
    /\ dev_clauses gscan = [clause colA_gt_5]
    /\ plan_qual gscan = [clause colB_like_x]
    /\ (kern_source gscan = None <-> dev_quals pathnode = []).
Proof.
  eexists _, _. split; [reflexivity|].
  split; [vm_compute; reflexivity|].
  split; [reflexivity|]. split; [reflexivity|].
  refine (proj2 (proj1 (@gpuscan_create_plan_kernel sample_postgres
            sample_codegen sample_createplan sample_rel _ context_zero)
          _ _)).
  vm_compute. reflexivity.
Defined.

(** A relation whose only clause is "colB LIKE '%x%'". *)
Lemma gpuscan_without_device_clause_witness :
  exists pathnode gscan,
    @gpuscan_add_scan_path sample_postgres sample_codegen true
      sample_rel_text = OK pathnode
    /\ dev_quals pathnode = []
    /\ @gpuscan_create_plan sample_postgres sample_codegen sample_createplan
         sample_rel_text pathnode context_zero = OK gscan
    /\ kern_source gscan = None.
Proof.
  destruct (@gpuscan_without_device_clause sample_postgres sample_codegen
              sample_createplan sample_backend true sample_rel_text
              context_zero)
    as (pathnode & gscan & Hpath & Hdev & _ & _ & Hplan & Hsrc & _).
  - intros rinfo Hin. apply list_elem_of_singleton in Hin as ->.
    reflexivity.
  - exists pathnode, gscan.
    split_and!; [exact Hpath|exact Hdev|exact Hplan|exact Hsrc].
Defined.

(** The sample relation, whose clause "colA > 5" runs on the device. *)
Lemma gpuscan_with_device_clause_witness :
  exists pathnode gscan,
    @gpuscan_add_scan_path sample_postgres sample_codegen true sample_rel
    = OK pathnode
    /\ @gpuscan_create_plan sample_postgres sample_codegen sample_createplan
         sample_rel pathnode context_zero = OK gscan
    /\ colA_gt_5 ∈ dev_quals pathnode
    /\ exists src,
         kern_source gscan = Some src
         /\ forall w node w',
              @gpuscan_begin sample_backend gscan w = (OK node, w') ->
              dprog_key node
              = @pgstrom_get_devprog_key sample_backend src
                  (plan_extra_flags gscan).
Proof.
  eexists _, _. split; [reflexivity|].
  split; [vm_compute; reflexivity|].
  apply (@gpuscan_with_device_clause sample_postgres sample_codegen
           sample_createplan sample_backend true sample_rel _
           context_zero _ colA_gt_5).
  - left.
  - reflexivity.
  - reflexivity.
  - vm_compute. reflexivity.
Defined.

(** A token with a blank and parentheses. *)
Lemma outToken_unprotect_witness :
  unprotect (_outToken "" (Some "a (b)")) = "a (b)".
Proof. refine (proj1 (outToken_unprotect "a (b)" _)). discriminate. Defined.

(** The name of the array of used columns, as a token. *)
Lemma outToken_identifier_witness :
  _outToken " :name " (Some "pg_used_vars") = " :name pg_used_vars".
Proof.
  apply (outToken_identifier " :name " "pg_used_vars"); reflexivity.
Defined.

(** Five characters, three of them backslashed. *)
Lemma outToken_length_witness :
  (5 <= String.length (_outToken "" (Some "a (b)")) <= 11)%nat.
Proof. apply (outToken_length "a (b)"). discriminate. Defined.

(** The set of the columns 3, 1 and 2. *)
Lemma outBitmapset_members_witness :
  exists members,
    Sorted Z.le members
    /\ NoDup members
    /\ (forall x, x ∈ members <-> x ∈ ({[ 3; 1; 2 ]} : Bitmapset))
    /\ _outBitmapset " :dev_attrs" {[ 3; 1; 2 ]}
       = " :dev_attrs" +:+ "(b"
         +:+ String.concat "" (map (fun x => " " +:+ fmt_d x) members)
         +:+ ")".
Proof.
  apply (outBitmapset_members " :dev_attrs" {[ 3; 1; 2 ]}).
  intros x Hx. set_unfold in Hx. lia.
Defined.

(** No shared memory context to be had. *)
Lemma gpuscan_begin_failure_witness :
  exists e w',
    @gpuscan_begin sample_backend sample_plan
      (world_of None (Some 2%positive) (Some 3%positive)) = (Raise e, w')
    /\ sqlerrcode e = ERRCODE_OUT_OF_MEMORY
    /\ message e = "failed to create shared memory context"
    /\ history w' = [].
Proof.
  destruct (@gpuscan_begin_failure sample_backend sample_plan
              (world_of None (Some 2%positive) (Some 3%positive)))
    as (e & w' & Hbegin & Hcode & Hmsg & Hhist & _).
  - by left.
  - exists e, w'.
    split_and!; [exact Hbegin|exact Hcode|exact Hmsg|exact Hhist].
Defined.

(** A scan of the sample plan from begin to end: the shared memory
    context is still acquired and has not been released. *)
Lemma gpuscan_scan_releases_nothing_witness :
  release_count ShmemContext 1%positive
    (mkWorld (supply
                (world_of (Some 1%positive) (Some 2%positive)
                          (Some 3%positive)))
             [Acquired ShmemContext 1%positive;
              Acquired MsgQueue 2%positive;
              Acquired ParamBuf 3%positive])
  = 0%nat
  /\ In (Acquired ShmemContext 1%positive)
        [Acquired ShmemContext 1%positive;
         Acquired MsgQueue 2%positive;
         Acquired ParamBuf 3%positive].
Proof.
  pose (w := world_of (Some 1%positive) (Some 2%positive)
                      (Some 3%positive)).
  pose (w' := mkWorld (supply w)
                [Acquired ShmemContext 1%positive;
                 Acquired MsgQueue 2%positive;
                 Acquired ParamBuf 3%positive]).
  pose (node := mkGpuScanState GpuScanMode_HeapOnlyScan (Some 1%positive)
                  (Some 2%positive) (Some 3%positive) 0 [] []).
  destruct (@gpuscan_scan_releases_nothing sample_backend sample_plan
              w node w' [ExecCustomPlan; EndCustomPlan] node w')
    as (_ & Hreleased & Hshm & _).
  - reflexivity.
  - reflexivity.
  - split; [exact (Hreleased ShmemContext 1%positive)
           | exact (Hshm 1%positive eq_refl)].
Defined.


(** Two sets with the same text. *)
Lemma outBitmapset_inj_witness :
  ({[ 3; 1; 2 ]} : Bitmapset) = {[ 1; 2; 3 ]}.
Proof.
  apply (outBitmapset_inj " :dev_attrs" {[ 3; 1; 2 ]} {[ 1; 2; 3 ]}).
  - intros x Hx. set_unfold in Hx. lia.
  - intros x Hx. set_unfold in Hx. lia.
  - reflexivity.
Defined.


(** The clauses of the plan for the sample relation. *)
Lemma gpuscan_create_plan_clauses_witness :
  exists pathnode gscan,
    @gpuscan_add_scan_path sample_postgres sample_codegen true sample_rel
    = OK pathnode
    /\ @gpuscan_create_plan sample_postgres sample_codegen sample_createplan
         sample_rel pathnode context_zero = OK gscan
    /\ (dev_clauses gscan ++ plan_qual gscan)%list
         ≡ₚ [clause colA_gt_5; clause colB_like_x].
Proof.
  eexists _, _. split; [reflexivity|].
  split; [vm_compute; reflexivity|].
  refine (proj1 (@gpuscan_create_plan_clauses sample_postgres
            sample_codegen sample_createplan true sample_rel _ context_zero
            _ _ _ _ _ _)).
  - reflexivity.
  - reflexivity.
  - reflexivity.
  - reflexivity.
  - vm_compute. reflexivity.
Defined.

(** Tokens and bitmapset texts. *)
Example outToken_examples :
  _outToken "" None = "<>"
  /\ _outToken "" (Some "") = "<>"
  /\ _outToken "" (Some "<>") = String backslash "<>"
  /\ _outToken "x" (Some "a b") = "xa" +:+ String backslash " b"
  /\ _outToken "" (Some "-1") = String backslash "-1"
  /\ _outToken "" (Some "-") = "-"
  /\ _outToken "" (Some "a-1") = "a-1"
  /\ _outBitmapset ":" {[ 3; 1; 2 ]} = ":(b 1 2 3)"
  /\ _outBitmapset ":" ∅ = ":(b)".
Proof. vm_compute. repeat split. Qed.

(** The name is cut at 64 characters: with a process and objects of many
    digits two range table entries come out under one name. *)
Example gpuscan_namebuf_truncated :
  let backend := {| MyProcPid := 1234567;
                    MyDatabaseId := 1000000001;
                    RelationGetRelid := fun _ => 1000000002;
                    pgstrom_get_devprog_key := fun _ _ => 0 |} in
  @gpuscan_namebuf backend 1 = @gpuscan_namebuf backend 2.
Proof. reflexivity. Qed.
